(** * Agenda pipeline: distribution, validation, time normalisation, recurrence

    A shallow embedding of the algorithmic core of the dashboard generator
    (the single Python module of the repository) together with the properties
    stated about it.  Python integers are [Z]; [//] and [%] are [Z.div] and
    [Z.modulo] (both round towards minus infinity, as Python does) guarded by
    an explicit [ZeroDivisionError]; lists are [list]; exceptions are the
    [Raise] case of [result]. *)

From Stdlib Require Import String Ascii ZArith Bool List Lia.
From Stdlib Require Import Sorting.Sorted Sorting.Permutation.
Import ListNotations.
Open Scope Z_scope.

(** ** Exceptions and fallible results *)

Inductive exn : Type :=
| ZeroDivisionError
| TypeError
| ValueError
| UnknownTimeZoneError
| OverflowError.

Inductive result (A : Type) : Type :=
| Ok (a : A)
| Raise (e : exn).
Arguments Ok {A} a.
Arguments Raise {A} e.

Definition bind {A B : Type} (r : result A) (k : A -> result B) : result B :=
  match r with
  | Ok a => k a
  | Raise e => Raise e
  end.

Notation "'let*' x ':=' r 'in' k" := (bind r (fun x => k))
  (at level 10, x name, r at level 100, k at level 200).

(** Python's [a // b] and [a % b] on integers. *)
Definition py_floordiv (a b : Z) : result Z :=
  if b =? 0 then Raise ZeroDivisionError else Ok (a / b).

Definition py_mod (a b : Z) : result Z :=
  if b =? 0 then Raise ZeroDivisionError else Ok (a mod b).

(** [range(n)] as a list of integers; empty when [n <= 0]. *)
Definition py_range (n : Z) : list Z :=
  map Z.of_nat (seq 0 (Z.to_nat n)).

Definition len {A : Type} (l : list A) : Z := Z.of_nat (length l).

(** [sum(l)] on a list of integers. *)
Definition zsum (l : list Z) : Z := fold_right Z.add 0 l.

(** Truthiness of a Python list. *)
Definition nonempty {A : Type} (l : list A) : bool :=
  match l with
  | [] => false
  | _ :: _ => true
  end.

(** ** Pagination: [distribute_items_across_pages] *)

Module Distribution.

Section Pages.

Context {Event Task : Type}.

(** A page dictionary [{'events': ..., 'tasks': ...}]. *)
Record Page : Type := mkPage { events : list Event; tasks : list Task }.

Definition page_total (p : Page) : Z := len (events p) + len (tasks p).

(** The loop
    [while remaining and items_on_page < target: taken.append(remaining.pop(0)); items_on_page += 1]
    returning the three variables it updates. *)
Fixpoint fill {A : Type} (remaining taken : list A) (items_on_page target_items : Z)
  : list A * list A * Z :=
  match remaining with
  | [] => (remaining, taken, items_on_page)
  | x :: rest =>
      if items_on_page <? target_items
      then fill rest (taken ++ [x]) (items_on_page + 1) target_items
      else (remaining, taken, items_on_page)
  end.

(** Body of the [for page_idx, target_items in enumerate(page_targets)] loop:
    the page built and what is left of the two queues. *)
Definition fill_page (page_idx n_targets max_items target_items : Z)
  (events_remaining : list Event) (tasks_remaining : list Task)
  : Page * list Event * list Task :=
  let '(events_remaining, page_events, items_on_page) :=
    fill events_remaining [] 0 target_items in
  let '(tasks_remaining, page_tasks, items_on_page) :=
    fill tasks_remaining [] items_on_page target_items in
  if (items_on_page <? target_items) && (page_idx <? n_targets - 1)
     && (items_on_page <? max_items)
  then
    match events_remaining, tasks_remaining with
    | e :: events_rest, _ =>
        (mkPage (page_events ++ [e]) page_tasks, events_rest, tasks_remaining)
    | [], t :: tasks_rest =>
        (mkPage page_events (page_tasks ++ [t]), events_remaining, tasks_rest)
    | [], [] => (mkPage page_events page_tasks, events_remaining, tasks_remaining)
    end
  else (mkPage page_events page_tasks, events_remaining, tasks_remaining).

(** The whole [for] loop over the targets still to serve, [page_idx] being the
    index of the first of them and [n_targets] the length of [page_targets]. *)
Fixpoint fill_pages (page_idx n_targets max_items : Z) (targets : list Z)
  (pages : list Page) (events_remaining : list Event) (tasks_remaining : list Task)
  : list Page * list Event * list Task :=
  match targets with
  | [] => (pages, events_remaining, tasks_remaining)
  | target_items :: later =>
      let '(page, events_remaining, tasks_remaining) :=
        fill_page page_idx n_targets max_items target_items
                  events_remaining tasks_remaining in
      fill_pages (page_idx + 1) n_targets max_items later (pages ++ [page])
                 events_remaining tasks_remaining
  end.

(** "Handle any remaining items": top up [pages[-1]] while it is below
    [max_items], then put what is still left on a trailing page. *)
Definition place_leftovers (max_items : Z) (pages : list Page)
  (events_remaining : list Event) (tasks_remaining : list Task) : list Page :=
  if nonempty events_remaining || nonempty tasks_remaining then
    let '(pages, events_remaining, tasks_remaining) :=
      match rev pages with
      | last_page :: front =>
          if page_total last_page <? max_items then
            let '(events_remaining, last_events, n) :=
              fill events_remaining (events last_page) (page_total last_page) max_items in
            let '(tasks_remaining, last_tasks, _) :=
              fill tasks_remaining (tasks last_page) n max_items in
            (rev front ++ [mkPage last_events last_tasks],
             events_remaining, tasks_remaining)
          else (pages, events_remaining, tasks_remaining)
      | [] => (pages, events_remaining, tasks_remaining)
      end in
    if nonempty events_remaining || nonempty tasks_remaining
    then pages ++ [mkPage events_remaining tasks_remaining]
    else pages
  else pages.

Definition page_targets_of (min_pages_needed target_per_page remainder : Z) : list Z :=
  let page_targets :=
    map (fun i => if i <? remainder then target_per_page + 1 else target_per_page)
        (py_range min_pages_needed) in
  let min_target := if min_pages_needed >? 1 then Z.min 4 target_per_page else 0 in
  map (fun target => Z.max target min_target) page_targets.

(** The value returned by [distribute_items_across_pages].  The calls to
    [validate_distribution_balance] only log and never change what is
    returned, so they do not appear. *)
Definition distribute_items_across_pages
  (events0 : list Event) (tasks0 : list Task) (max_items : Z) : result (list Page) :=
  if len events0 + len tasks0 >? 1000 then Ok [mkPage [] []]
  else if negb (nonempty events0) && negb (nonempty tasks0) then Ok [mkPage [] []]
  else
    let total_items := len events0 + len tasks0 in
    if total_items <=? max_items then Ok [mkPage events0 tasks0]
    else
      let* min_pages_needed := py_floordiv (total_items + max_items - 1) max_items in
      let* target_per_page := py_floordiv total_items min_pages_needed in
      let* remainder := py_mod total_items min_pages_needed in
      let page_targets := page_targets_of min_pages_needed target_per_page remainder in
      let '(pages, events_remaining, tasks_remaining) :=
        fill_pages 0 (len page_targets) max_items page_targets [] events0 tasks0 in
      Ok (place_leftovers max_items pages events_remaining tasks_remaining).

Definition page_sizes (pages : list Page) : list Z := map page_total pages.

Definition all_events (pages : list Page) : list Event := concat (map events pages).
Definition all_tasks (pages : list Page) : list Task := concat (map tasks pages).

Definition sum_lengths {A : Type} (ls : list (list A)) : nat :=
  list_sum (map (@length A) ls).

(** Conservation: pages are returned, the page lengths add up to the input
    lengths, and the pages concatenated in order give back both inputs. *)
Definition conserves (E : list Event) (T : list Task) (max_items : Z) : Prop :=
  exists pages : list Page,
    distribute_items_across_pages E T max_items = Ok pages /\
    sum_lengths (map events pages) = length E /\
    sum_lengths (map tasks pages) = length T /\
    all_events pages = E /\ all_tasks pages = T.

(** Capacity: pages are returned and none holds more than [max_items]. *)
Definition within_capacity (E : list Event) (T : list Task) (max_items : Z) : Prop :=
  exists pages : list Page,
    distribute_items_across_pages E T max_items = Ok pages /\
    Forall (fun pg => page_total pg <= max_items) pages.

(** Balance: [p = (total + max_items - 1) // max_items] pages are returned,
    holding [total // p] items each and one more on the first [total % p]. *)
Definition balanced_split (E : list Event) (T : list Task) (max_items : Z) : Prop :=
  let total := len E + len T in
  let p := (total + max_items - 1) / max_items in
  exists pages : list Page,
    distribute_items_across_pages E T max_items = Ok pages /\
    len pages = p /\
    page_sizes pages
    = map (fun i => total / p + (if i <? total mod p then 1 else 0)) (py_range p).

End Pages.

Arguments Page : clear implicits.

(** Sample inputs. *)
Definition sample_events (n : nat) : list nat := seq 0 n.

Definition sample_tasks : list string :=
  ["Top 3 Things"; "Plan for SAFVC"; "Zero Strikes Virgin Active"; "All AMP Staged"]%string.

End Distribution.

(** ** Text helpers

    Strings are byte strings; [lower] and [upper] act on the ASCII letters,
    which is what [str.lower()] and [str.upper()] do on ASCII text. *)

Module Text.

Definition lower_ascii (c : ascii) : ascii :=
  let n := nat_of_ascii c in
  if (65 <=? n)%nat && (n <=? 90)%nat then ascii_of_nat (n + 32) else c.

Definition upper_ascii (c : ascii) : ascii :=
  let n := nat_of_ascii c in
  if (97 <=? n)%nat && (n <=? 122)%nat then ascii_of_nat (n - 32) else c.

Fixpoint lower (s : string) : string :=
  match s with
  | EmptyString => EmptyString
  | String c rest => String (lower_ascii c) (lower rest)
  end.

Fixpoint upper (s : string) : string :=
  match s with
  | EmptyString => EmptyString
  | String c rest => String (upper_ascii c) (upper rest)
  end.

(** [needle in hay]. *)
Fixpoint contains (needle hay : string) : bool :=
  match hay with
  | EmptyString => String.prefix needle hay
  | String _ rest => String.prefix needle hay || contains needle rest
  end.

(** [str(x or '')] for an optional text property. *)
Definition text_or_empty (x : option string) : string :=
  match x with
  | Some s => s
  | None => EmptyString
  end.

(** Truthiness of an optional text property. *)
Definition truthy (x : option string) : bool :=
  match x with
  | Some (String _ _) => true
  | _ => false
  end.

End Text.

(** ** Dates, datetimes and Arrow values

    Instants and wall-clock readings are microseconds since the epoch, dates
    are day ordinals.  A timezone is its UTC offset in microseconds: zones
    whose offset changes over the year are outside this model. *)

Module Time.

Definition us_per_hour : Z := 3600000000.
Definition us_per_day : Z := 86400000000.

Record tzinfo : Type := mkTz { utcoffset : Z }.

Definition UTC : tzinfo := mkTz 0.

(** The three kinds of value a DTSTART, DTEND, EXDATE or RECURRENCE-ID holds:
    [datetime.date], naive [datetime.datetime], aware [datetime.datetime]. *)
Inductive dt : Type :=
| Date (ordinal : Z)
| Naive (wall : Z)
| Aware (utc : Z) (tz : tzinfo).

(** [isinstance(x, date) and not isinstance(x, datetime)] *)
Definition is_date (x : dt) : bool :=
  match x with
  | Date _ => true
  | _ => false
  end.

(** [x == y] on dates and datetimes: a date never equals a datetime, a naive
    datetime never equals an aware one, aware ones compare as instants. *)
Definition dt_eqb (x y : dt) : bool :=
  match x, y with
  | Date a, Date b => a =? b
  | Naive a, Naive b => a =? b
  | Aware a _, Aware b _ => a =? b
  | _, _ => false
  end.

(** [x + timedelta]; a date only moves by the whole days of the delta. *)
Definition dt_add (x : dt) (delta : Z) : dt :=
  match x with
  | Date o => Date (o + delta / us_per_day)
  | Naive w => Naive (w + delta)
  | Aware u z => Aware (u + delta) z
  end.

(** [x - y] as a timedelta, [TypeError] on operands that do not mix. *)
Definition dt_sub (x y : dt) : result Z :=
  match x, y with
  | Date a, Date b => Ok ((a - b) * us_per_day)
  | Naive a, Naive b => Ok (a - b)
  | Aware a _, Aware b _ => Ok (a - b)
  | _, _ => Raise TypeError
  end.

(** [timedelta.days] *)
Definition days (delta : Z) : Z := delta / us_per_day.

Record Arrow : Type := mkArrow { instant : Z; zone : tzinfo }.

(** [arrow.get(x)]: a date is its midnight and a naive datetime its wall
    clock, both taken as UTC; an aware datetime keeps instant and zone. *)
Definition arrow_get (x : dt) : Arrow :=
  match x with
  | Date o => mkArrow (o * us_per_day) UTC
  | Naive w => mkArrow w UTC
  | Aware u z => mkArrow u z
  end.

(** [arrow.get(naive, tz)]: the wall clock read in zone [tz]. *)
Definition arrow_get_in (wall : Z) (tz : tzinfo) : Arrow :=
  mkArrow (wall - utcoffset tz) tz.

(** [a.to(tz)] *)
Definition arrow_to (a : Arrow) (tz : tzinfo) : Arrow := mkArrow (instant a) tz.

(** [a.naive]: the wall clock of [a] in its own zone. *)
Definition arrow_naive (a : Arrow) : Z := instant a + utcoffset (zone a).

(** [a.datetime] *)
Definition arrow_datetime (a : Arrow) : dt := Aware (instant a) (zone a).

(** [a.datetime.astimezone(tz)] *)
Definition astimezone (a : Arrow) (tz : tzinfo) : dt := Aware (instant a) tz.

(** [a.floor('day')]: midnight of [a]'s day on its own wall clock. *)
Definition floor_day (a : Arrow) : Arrow :=
  arrow_get_in (arrow_naive a / us_per_day * us_per_day) (zone a).

(** [a < b], [a == b] and [a - b] on Arrow values compare instants. *)
Definition arrow_ltb (a b : Arrow) : bool := instant a <? instant b.
Definition arrow_eqb (a b : Arrow) : bool := instant a =? instant b.
Definition arrow_sub (a b : Arrow) : Z := instant a - instant b.

(** [str(a) == str(b)]: the ISO text shows wall clock and offset. *)
Definition arrow_str_eqb (a b : Arrow) : bool :=
  (instant a =? instant b) && (utcoffset (zone a) =? utcoffset (zone b)).

End Time.

(** ** Resolved events *)

Module Events.
Import Time.

Record Event : Type := mkEvent {
  uid : string;
  summary : string;
  description : string;
  location : string;
  begin_local : Arrow;
  end_local : Arrow;
  all_day : bool;
  cal_name : option string;
  is_recurring : bool
}.

End Events.

(** ** Sorting as Python does it

    [list.sort] and [sorted] are stable and only ever ask [x < y]; for such
    an order every stable sort returns the same list, given here by
    insertion from the right. *)

Fixpoint insert_by {A : Type} (ltb : A -> A -> bool) (x : A) (l : list A) : list A :=
  match l with
  | [] => [x]
  | y :: rest => if ltb y x then y :: insert_by ltb x rest else x :: l
  end.

Definition py_sorted {A : Type} (ltb : A -> A -> bool) (l : list A) : list A :=
  fold_right (insert_by ltb) [] l.

(** [x] may stand before [y]: [y < x] does not hold. *)
Definition sorted_le {A : Type} (ltb : A -> A -> bool) (x y : A) : Prop :=
  ltb y x = false.

(** ** Event validation: [validate_events] *)

Module Validator.
Import Time Events.

(** The identity key [(summary, str(begin_local), str(end_local), all_day)]. *)
Definition Key : Type := string * Arrow * Arrow * bool.

Definition key_of (event : Event) : Key :=
  (summary event, begin_local event, end_local event, all_day event).

Definition key_eqb (k1 k2 : Key) : bool :=
  let '(s1, b1, e1, a1) := k1 in
  let '(s2, b2, e2, a2) := k2 in
  String.eqb s1 s2 && arrow_str_eqb b1 b2 && arrow_str_eqb e1 e2 && Bool.eqb a1 a2.

(** [key in seen] *)
Definition key_in (key : Key) (seen : list Key) : bool := existsb (key_eqb key) seen.

(** ["cancel" in summary_str.lower() + description_str.lower()] *)
Definition looks_cancelled (event : Event) : bool :=
  Text.contains "cancel"
    (String.append (Text.lower (summary event)) (Text.lower (description event))).

(** The all-day bleed check. *)
Definition bleeds (event : Event) : bool :=
  all_day event &&
  (days (arrow_sub (floor_day (end_local event)) (floor_day (begin_local event))) >? 1).

(** The first loop.  The ordering audit in it only appends to [issues], which
    goes to the log file, so [last_day] and [last_time] are not carried. *)
Fixpoint sweep (events : list Event) (seen : list Key) (fixed_events : list Event)
  : list Event :=
  match events with
  | [] => fixed_events
  | event :: rest =>
      let key := key_of event in
      let duplicate := key_in key seen in
      let seen := if duplicate then seen else key :: seen in
      let cancelled := looks_cancelled event || bleeds event in
      sweep rest seen
            (if negb duplicate && negb cancelled
             then fixed_events ++ [event] else fixed_events)
  end.

(** [event["begin_local"].floor('day')] as a dictionary key: Arrow values hash
    and compare by instant, so the key is the instant of that midnight. *)
Definition day_of (event : Event) : Z := instant (floor_day (begin_local event)).

(** [events_by_day.setdefault(day, []).append(event)] on an insertion-ordered
    dictionary. *)
Fixpoint setdefault_append (day : Z) (event : Event) (d : list (Z * list Event))
  : list (Z * list Event) :=
  match d with
  | [] => [(day, [event])]
  | (k, v) :: rest =>
      if k =? day then (k, v ++ [event]) :: rest
      else (k, v) :: setdefault_append day event rest
  end.

Definition group_by_day (fixed_events : list Event) : list (Z * list Event) :=
  fold_left (fun d event => setdefault_append (day_of event) event d) fixed_events [].

(** [events_by_day[day]] *)
Fixpoint lookup_day (day : Z) (d : list (Z * list Event)) : list Event :=
  match d with
  | [] => []
  | (k, v) :: rest => if k =? day then v else lookup_day day rest
  end.

(** [(e1["begin_local"], e1["summary"]) < (e2["begin_local"], e2["summary"])] *)
Definition sort_key_ltb (e1 e2 : Event) : bool :=
  if arrow_eqb (begin_local e1) (begin_local e2)
  then String.ltb (summary e1) (summary e2)
  else arrow_ltb (begin_local e1) (begin_local e2).

(** What one day contributes: its all-day events, then its timed ones. *)
Definition day_block (day_events : list Event) : list Event :=
  let all_day_events := filter all_day day_events in
  let timed := filter (fun e => negb (all_day e)) day_events in
  py_sorted sort_key_ltb all_day_events ++ py_sorted sort_key_ltb timed.

Definition validate_events (events : list Event) : list Event :=
  let fixed_events := sweep events [] [] in
  let events_by_day := group_by_day fixed_events in
  flat_map (fun day => day_block (lookup_day day events_by_day))
           (py_sorted Z.ltb (map fst events_by_day)).

(** The first loop without its accumulator: the events it keeps. *)
Definition dropped (event : Event) : bool := looks_cancelled event || bleeds event.

Fixpoint kept (events : list Event) (seen : list Key) : list Event :=
  match events with
  | [] => []
  | event :: rest =>
      let duplicate := key_in (key_of event) seen in
      let seen' := if duplicate then seen else key_of event :: seen in
      if negb duplicate && negb (dropped event)
      then event :: kept rest seen' else kept rest seen'
  end.

(** The grouping and reordering as a function of the kept events. *)
Definition on_day (day : Z) (e : Event) : bool := day_of e =? day.

Definition days_of (fixed_events : list Event) : list Z :=
  py_sorted Z.ltb (map fst (group_by_day fixed_events)).

Definition arrange (fixed_events : list Event) : list Event :=
  flat_map (fun day => day_block (filter (on_day day) fixed_events))
           (days_of fixed_events).

(** The order the validator promises: one block per start day, days strictly
    ascending; in a block the all-day events come first; both halves are
    ascending for [(begin_local, summary)]. *)
Definition sort_key_le (e1 e2 : Event) : Prop := sorted_le sort_key_ltb e1 e2.

Definition block_of_day (day : Z) (block : list Event) : Prop :=
  exists all_day_events timed : list Event,
    block = all_day_events ++ timed /\ block <> [] /\
    Forall (fun e => all_day e = true /\ day_of e = day) all_day_events /\
    Forall (fun e => all_day e = false /\ day_of e = day) timed /\
    StronglySorted sort_key_le all_day_events /\
    StronglySorted sort_key_le timed.

Definition canonical_order (l : list Event) : Prop :=
  exists (day_list : list Z) (blocks : list (list Event)),
    l = concat blocks /\
    StronglySorted Z.lt day_list /\
    Forall2 block_of_day day_list blocks.

End Validator.

(** ** Time normalisation: [convert_to_local] *)

Module TimeNormalizer.
Import Time.

(** The range of [datetime.date] and [datetime.datetime]: 0001-01-01 up to
    9999-12-31, the last microsecond of that day included.  Days and
    microseconds are counted from 1970-01-01, which is day 719163 of the
    calendar. *)
Definition date_min : Z := 1 - 719163.
Definition date_max : Z := 3652059 - 719163.
Definition datetime_min : Z := date_min * us_per_day.
Definition datetime_max : Z := date_max * us_per_day + (us_per_day - 1).

Definition date_in_range (ordinal : Z) : bool :=
  (date_min <=? ordinal) && (ordinal <=? date_max).

Definition datetime_in_range (wall : Z) : bool :=
  (datetime_min <=? wall) && (wall <=? datetime_max).

Section Zones.

(** [pytz.timezone]: the zone database, [None] for a name it does not know. *)
Variable pytz_timezone : string -> option tzinfo.

(** [mytz is tz]: whether the zone object the value carries is the very
    object the database returned.  A zone is modelled by its offset, which
    does not decide the identity of the two objects. *)
Variable same_zone_object : tzinfo -> tzinfo -> bool.

(** [self.astimezone(tz)] on an aware datetime: the value itself when its
    zone object is [tz]; otherwise [self - offset], the UTC reading, is
    computed first and [tz.fromutc] adds the offset of [tz] to it, and each
    of the two raises [OverflowError] when it leaves the range. *)
Definition datetime_astimezone (u : Z) (mytz tz : tzinfo) : result dt :=
  if same_zone_object mytz tz then Ok (Aware u mytz)
  else if negb (datetime_in_range u) then Raise OverflowError
  else if negb (datetime_in_range (u + utcoffset tz)) then Raise OverflowError
  else Ok (Aware u tz).

(** The argument is [None] or one of the three kinds of value. *)
Definition convert_to_local (x : option dt) (timezone_str : string)
  : result (option dt) :=
  match x with
  | None => Ok None
  | Some (Date o) => Ok (Some (Date o))
  | Some (Naive w) => Ok (Some (Naive w))
  | Some (Aware u mytz) =>
      match pytz_timezone timezone_str with
      | Some local_tz =>
          let* local := datetime_astimezone u mytz local_tz in
          Ok (Some local)
      | None => Raise UnknownTimeZoneError
      end
  end.

End Zones.

Definition is_aware (x : option dt) : bool :=
  match x with
  | Some (Aware _ _) => true
  | _ => false
  end.

(** A fragment of the tz database, some of its fixed-offset zones (the sign
    in the names is POSIX style: ["Etc/GMT+5"] is five hours behind UTC). *)
Definition etc_zones (name : string) : option tzinfo :=
  let hours (h : Z) := Some (mkTz (h * us_per_hour)) in
  if String.eqb name "UTC" then hours 0
  else if String.eqb name "Etc/GMT+5" then hours (-5)
  else if String.eqb name "Etc/GMT+8" then hours (-8)
  else if String.eqb name "Etc/GMT-1" then hours 1
  else if String.eqb name "Etc/GMT-2" then hours 2
  else None.

(** Values parsed by another library than the database: their zone objects
    are never the database's own. *)
Definition no_shared_objects (_ _ : tzinfo) : bool := false.

(** Values that carry the database's own objects, one object per offset. *)
Definition database_objects (mytz tz : tzinfo) : bool :=
  utcoffset mytz =? utcoffset tz.

End TimeNormalizer.

(** ** Recurrence resolution: [parse_events] *)

Module Recurrence.
Import Time Events.

(** A VEVENT as [cal.walk()] yields it: each property is absent or holds its
    value; EXDATE is the flattened list of excluded values, RRULE the rule
    text [vRecur.to_ical] gives. *)
Record Component : Type := mkComponent {
  UID : option string;
  RECURRENCE_ID : option dt;
  STATUS : option string;
  SUMMARY : option string;
  DESCRIPTION : option string;
  LOCATION : option string;
  TRANSP : option string;
  DTSTART : option dt;
  DTEND : option dt;
  RRULE : option string;
  EXDATE : list dt
}.

(** The occurrence key [(uid, recurrence_id_or_None)]. *)
Definition Key : Type := string * option dt.

Definition key_eqb (k1 k2 : Key) : bool :=
  String.eqb (fst k1) (fst k2) &&
  match snd k1, snd k2 with
  | None, None => true
  | Some x, Some y => dt_eqb x y
  | _, _ => false
  end.

Definition key_in (key : Key) (keys : list Key) : bool := existsb (key_eqb key) keys.

(** [cancelled_keys.add(key)] *)
Definition set_add (key : Key) (keys : list Key) : list Key :=
  if key_in key keys then keys else keys ++ [key].

(** [overrides[key] = component] and [overrides[key]] *)
Fixpoint dict_set (key : Key) (c : Component) (d : list (Key * Component))
  : list (Key * Component) :=
  match d with
  | [] => [(key, c)]
  | (k, v) :: rest =>
      if key_eqb k key then (k, c) :: rest else (k, v) :: dict_set key c rest
  end.

Fixpoint dict_get (key : Key) (d : list (Key * Component)) : option Component :=
  match d with
  | [] => None
  | (k, v) :: rest => if key_eqb k key then Some v else dict_get key rest
  end.

Definition component_uid (c : Component) : string := Text.text_or_empty (UID c).

Definition component_key (c : Component) : Key := (component_uid c, RECURRENCE_ID c).

(** *** Pass 1: classification *)

(** The keyword test of Pass 1 on the summary and description texts. *)
Definition mentions_cancelled (summary description : string) : bool :=
  Text.contains "cancelled" (Text.lower summary)
  || Text.contains "canceled" (Text.lower summary)
  || Text.contains "cancelled" (Text.lower description)
  || Text.contains "canceled" (Text.lower description).

(** The value of [cancelled] when the loop body reaches [key = ...]; the
    subtraction [dtend - dtstart] raises on an all-day start with a datetime
    end. *)
Definition cancellation_verdict (c : Component) : result bool :=
  let status := Text.upper (Text.text_or_empty (STATUS c)) in
  let summary := Text.text_or_empty (SUMMARY c) in
  let description := Text.text_or_empty (DESCRIPTION c) in
  let transparency := Text.lower (Text.text_or_empty (TRANSP c)) in
  let cancelled := String.eqb status "CANCELLED" in
  let cancelled := cancelled || mentions_cancelled summary description in
  let cancelled :=
    cancelled ||
    (String.eqb transparency "opaque" &&
     match DTSTART c with Some _ => false | None => true end) in
  let* cancelled :=
    match DTSTART c, DTEND c with
    | Some dtstart, Some dtend =>
        if is_date dtstart then
          let* span := dt_sub dtend dtstart in
          Ok (cancelled || ((days span >? 1) && String.eqb summary ""))
        else Ok cancelled
    | _, _ => Ok cancelled
    end in
  Ok match RECURRENCE_ID c with
     | Some _ =>
         cancelled ||
         (String.eqb status "CANCELLED"
          || negb (Text.truthy (SUMMARY c) || Text.truthy (LOCATION c)
                   || Text.truthy (DESCRIPTION c)))
     | None => cancelled
     end.

Record Buckets : Type := mkBuckets {
  master_events : list Component;
  overrides : list (Key * Component);
  cancelled_keys : list Key
}.

(** One turn of the Pass 1 loop on a VEVENT. *)
Definition classify (st : Buckets) (c : Component) : result Buckets :=
  let* cancelled := cancellation_verdict c in
  let key := component_key c in
  if cancelled then
    Ok (mkBuckets (master_events st) (overrides st) (set_add key (cancelled_keys st)))
  else
    match RECURRENCE_ID c with
    | Some _ =>
        Ok (mkBuckets (master_events st) (dict_set key c (overrides st))
                      (cancelled_keys st))
    | None =>
        Ok (mkBuckets (master_events st ++ [c]) (overrides st) (cancelled_keys st))
    end.

Fixpoint pass1 (components : list Component) (st : Buckets) : result Buckets :=
  match components with
  | [] => Ok st
  | c :: rest => let* st := classify st c in pass1 rest st
  end.

(** *** Pass 2: expansion *)

Section Expansion.

(** The recurrence library: [rrulestr(text, dtstart=...)] parses a rule or
    raises; [rule.between(after, before, inc=True)] lists occurrences or
    raises.  Naive datetimes are wall clocks. *)
Variable rule : Type.
Variable rrulestr : string -> Z -> result rule.
Variable between : rule -> Z -> Z -> result (list Z).

(** The helper that rewrites a UTC [UNTIL=...Z] of the rule text as naive
    local time; it only changes which text is parsed. *)
Variable convert_rrule_until_to_naive : string -> tzinfo -> string.

(** The zone [timezone_str] names and the instant [arrow.now] reads. *)
Variable timezone : tzinfo.
Variable now : Z.

Definition window_start : dt := arrow_datetime (floor_day (mkArrow now timezone)).
Definition window_end : dt := dt_add window_start (2 * us_per_day).

(** The end after duration defaulting; [None] only without a start. *)
Definition defaulted_end (dtstart dtend : option dt) : option dt :=
  match dtend, dtstart with
  | None, Some s => if is_date s then Some s else Some (dt_add s us_per_hour)
  | _, _ => dtend
  end.

(** The naive start handed to [rrulestr] and the rule text it parses. *)
Definition rule_of (rrule_str : string) (dtstart : dt) : result rule :=
  match dtstart with
  | Aware _ _ =>
      let rule_dtstart := arrow_naive (arrow_to (arrow_get dtstart) timezone) in
      let rrule_str :=
        if Text.contains "UNTIL=" rrule_str
        then convert_rrule_until_to_naive rrule_str timezone else rrule_str in
      rrulestr rrule_str rule_dtstart
  | Date o => rrulestr rrule_str (o * us_per_day)
  | Naive w => rrulestr rrule_str w
  end.

(** [window.date()] and [window.replace(tzinfo=None)] of an aware datetime. *)
Definition wall_of (x : dt) : Z :=
  match x with
  | Aware u z => u + utcoffset z
  | Naive w => w
  | Date o => o * us_per_day
  end.

Definition caught {A : Type} (r : result (list A)) : list A :=
  match r with
  | Ok l => l
  | Raise _ => []
  end.

(** The occurrences inside the window, in the type of the master's start. *)
Definition occurrences_of (r : rule) (dtstart : dt) : list dt :=
  match dtstart with
  | Aware _ start_tz =>
      let window_start_naive := arrow_naive (arrow_to (arrow_get window_start) timezone) in
      let window_end_naive := arrow_naive (arrow_to (arrow_get window_end) timezone) in
      map (fun occ_naive =>
             let occ_local_aware := arrow_get_in occ_naive timezone in
             astimezone occ_local_aware start_tz)
          (caught (between r window_start_naive window_end_naive))
  | Date _ =>
      let window_start_date := wall_of window_start / us_per_day in
      let window_end_date := wall_of window_end / us_per_day in
      map (fun occ => Date (occ / us_per_day))
          (caught (between r (window_start_date * us_per_day)
                           (window_end_date * us_per_day)))
  | Naive _ =>
      map Naive (caught (between r (wall_of window_start) (wall_of window_end)))
  end.

(** The duration of a generated instance: the master's own, one hour when the
    two ends do not subtract. *)
Definition master_duration (dtstart dtend : option dt) : Z :=
  match dtend, dtstart with
  | Some e, Some s =>
      if negb (is_date s) && negb (is_date e) || is_date s && is_date e then
        match dt_sub e s with
        | Ok d => d
        | Raise _ => us_per_hour
        end
      else us_per_hour
  | _, _ => us_per_hour
  end.

Definition to_local (x : dt) : Arrow := arrow_to (arrow_get x) timezone.

(** One turn of the [for occ in occurrences] loop: the instance appended, or
    nothing when the occurrence is excluded or cancelled. *)
Definition instance_of (st : Buckets) (event : Component) (dtstart dtend : option dt)
  (occ : dt) : list Event :=
  let uid := component_uid event in
  let occ_key : Key := (uid, Some occ) in
  if existsb (dt_eqb occ) (EXDATE event) || key_in occ_key (cancelled_keys st) then []
  else
    let '(dtstart_inst, dtend_inst, summary, description, location) :=
      match dict_get occ_key (overrides st) with
      | Some comp =>
          let dtstart_inst :=
            match DTSTART comp with Some d => d | None => occ end in
          let dtend_inst :=
            match DTEND comp with Some d => d | None => dtstart_inst end in
          (dtstart_inst, dtend_inst,
           Text.text_or_empty (SUMMARY comp),
           Text.text_or_empty (DESCRIPTION comp),
           Text.text_or_empty (LOCATION comp))
      | None =>
          (occ, dt_add occ (master_duration dtstart dtend),
           Text.text_or_empty (SUMMARY event),
           Text.text_or_empty (DESCRIPTION event),
           Text.text_or_empty (LOCATION event))
      end in
    [mkEvent uid summary description location
             (to_local dtstart_inst) (to_local dtend_inst)
             (is_date dtstart_inst) None true].

(** One turn of the Pass 2 loop: the events one master appends. *)
Definition expand_master (st : Buckets) (event : Component) : list Event :=
  let uid := component_uid event in
  if key_in (uid, None) (cancelled_keys st) then []
  else
    let dtstart := DTSTART event in
    let dtend := defaulted_end dtstart (DTEND event) in
    match RRULE event, dtstart with
    | Some rrule_str, Some start =>
        match rule_of rrule_str start with
        | Raise _ => []
        | Ok r =>
            flat_map (instance_of st event dtstart dtend) (occurrences_of r start)
        end
    | _, Some start =>
        let begin_local := to_local start in
        let end_local :=
          match dtend with Some e => to_local e | None => begin_local end in
        [mkEvent uid (Text.text_or_empty (SUMMARY event))
                 (Text.text_or_empty (DESCRIPTION event))
                 (Text.text_or_empty (LOCATION event))
                 begin_local end_local (is_date start) None false]
    | _, None => []
    end.

(** [parse_events] on the VEVENTs of the payload: an exception in Pass 1
    leaves the event list empty. *)
Definition parse_events (components : list Component) : list Event :=
  match pass1 components (mkBuckets [] [] []) with
  | Ok st => flat_map (expand_master st) (master_events st)
  | Raise _ => []
  end.

(** Where an emitted start stands in the frame the rule was evaluated in:
    the local wall clock for a series with an aware start, the value of the
    anchor itself (which [arrow.get] reads as UTC) for floating and all-day
    series. *)
Definition frame_reading (master_start : dt) (a : Arrow) : Z :=
  match master_start with
  | Aware _ _ => arrow_naive a
  | _ => instant a
  end.

Definition in_window (master_start : dt) (a : Arrow) : Prop :=
  wall_of window_start <= frame_reading master_start a
  <= wall_of window_start + 2 * us_per_day.

(** The start read on the local wall clock lies in the active window. *)
Definition starts_in_window (a : Arrow) : Prop :=
  wall_of window_start <= arrow_naive (arrow_to a timezone)
  <= wall_of window_start + 2 * us_per_day.

(** The instance takes its start from an override that has a DTSTART. *)
Definition from_moved_override (st : Buckets) (event : Component) (e : Event) : Prop :=
  exists (occ d : dt) (comp : Component),
    dict_get (component_uid event, Some occ) (overrides st) = Some comp /\
    DTSTART comp = Some d /\ begin_local e = to_local d.

End Expansion.

(** A concrete rule for examples: every [period] microseconds from the start,
    for ever; ["FREQ=DAILY"] is the only text it parses. *)
Record simple_rule : Type := mkRule { first : Z; period : Z }.

Definition simple_rrulestr (text : string) (dtstart : Z) : result simple_rule :=
  if String.eqb text "FREQ=DAILY" then Ok (mkRule dtstart us_per_day)
  else Raise ValueError.

Definition simple_between (r : simple_rule) (after before : Z) : result (list Z) :=
  Ok (filter (fun x => (after <=? x) && (x <=? before))
             (map (fun k => first r + k * period r)
                  (py_range ((before - first r) / period r + 1)))).

Definition keep_rule_text (rrule_str : string) (_ : tzinfo) : string := rrule_str.

(** Sample payloads: a daily series in UTC, an override that moves its
    occurrence of day 20000 ten days on, and two one-off events. *)
Definition sample_now : Z := 20000 * us_per_day + 10 * us_per_hour.

Definition daily_standup : Component :=
  mkComponent (Some "standup"%string) None None (Some "Standup"%string) None None None
    (Some (Aware (19990 * us_per_day + 9 * us_per_hour) UTC)) None
    (Some "FREQ=DAILY"%string) []%list.

Definition moved_standup : Component :=
  mkComponent (Some "standup"%string)
    (Some (Aware (20000 * us_per_day + 9 * us_per_hour) UTC)) None
    (Some "Standup (moved)"%string) None None None
    (Some (Aware (20010 * us_per_day + 9 * us_per_hour) UTC)) None None []%list.

Definition cancel_membership : Component :=
  mkComponent (Some "gym"%string) None None (Some "Cancel gym membership"%string) None None None
    (Some (Date 20000)) None None []%list.

Definition canceled_review : Component :=
  mkComponent (Some "review"%string) None None (Some "Review CANCELED"%string) None None None
    (Some (Date 20000)) None None []%list.

Definition daily_birthday : Component :=
  mkComponent (Some "bday"%string) None None (Some "Birthday"%string) None None None
    (Some (Date 19990)) None (Some "FREQ=DAILY"%string) []%list.

(** Five hours behind UTC, as ["Etc/GMT+5"] is. *)
Definition five_behind : tzinfo := mkTz (-5 * us_per_hour).

Definition sample_parse (components : list Component) : list Event :=
  parse_events simple_rule simple_rrulestr simple_between keep_rule_text
               UTC sample_now components.

(** The instance the daily series generates for day 20001. *)
Definition second_standup : Event :=
  mkEvent "standup" "Standup" "" ""
    (mkArrow (20001 * us_per_day + 9 * us_per_hour) UTC)
    (mkArrow (20001 * us_per_day + 10 * us_per_hour) UTC) false None true.

End Recurrence.

(** ** The balance check: [validate_distribution_balance] *)

Module BalanceCheck.
Import Distribution.

(** [min(l)] and [max(l)] on a non-empty list of integers. *)
Definition py_min (l : list Z) : Z :=
  match l with
  | [] => 0
  | x :: rest => fold_left Z.min rest x
  end.

Definition py_max (l : list Z) : Z :=
  match l with
  | [] => 0
  | x :: rest => fold_left Z.max rest x
  end.

Section Check.

Context {Event Task : Type}.

(** The verdict of [validate_distribution_balance]; the warnings it logs on
    the way are not modelled.  [min] and [max] are only reached with pages. *)
Definition validate_distribution_balance (pages : list (Page Event Task))
  (total_events total_tasks max_items : Z) : bool :=
  if negb (nonempty pages) then (total_events =? 0) && (total_tasks =? 0)
  else
    let distributed_events := zsum (map (fun page => len (events page)) pages) in
    let distributed_tasks := zsum (map (fun page => len (tasks page)) pages) in
    if negb (distributed_events =? total_events) then false
    else if negb (distributed_tasks =? total_tasks) then false
    else if existsb (fun page => page_total page >? max_items) pages then false
    else
      let page_totals := map page_total pages in
      let total_items := total_events + total_tasks in
      if (len pages >? 1) && (total_items >? max_items) then
        let min_items := py_min page_totals in
        let max_items_used := py_max page_totals in
        if (max_items_used >=? 7) && (min_items <=? 2) then false
        else
          let balance_diff := max_items_used - min_items in
          if (balance_diff >? 3) && (total_items >? len pages * 4) then false
          else true
      else true.

(** The distribution returns pages that its own check accepts. *)
Definition passes_own_check (E : list Event) (T : list Task) (max_items : Z) : Prop :=
  exists pages : list (Page Event Task),
    distribute_items_across_pages E T max_items = Ok pages /\
    validate_distribution_balance pages (len E) (len T) max_items = true.

End Check.

End BalanceCheck.

(** ** The order pages are filled in *)

Module FillOrder.
Import Distribution.

Section Order.
Context {Event Task : Type}.

(** Pages of events only, then at most one page that may mix the two, then
    pages of tasks only. *)
Inductive events_then_tasks : list (Page Event Task) -> Prop :=
| only_events_so_far (page : Page Event Task) (later : list (Page Event Task)) :
    tasks page = [] -> events_then_tasks later -> events_then_tasks (page :: later)
| tasks_from_here (page : Page Event Task) (later : list (Page Event Task)) :
    Forall (fun q => events q = []) later -> events_then_tasks (page :: later)
| no_pages : events_then_tasks [].

Definition fills_events_first (E : list Event) (T : list Task) (max_items : Z) : Prop :=
  exists pages : list (Page Event Task),
    distribute_items_across_pages E T max_items = Ok pages /\
    events_then_tasks pages.

End Order.
End FillOrder.

(** ** Writing spaces: [add_strategic_writing_spaces] *)

Module WritingSpaces.

Section Spaces.

Context {Entry : Type}.

(** [create_blank_entry("notes")] as made while the loop is at index [i]:
    its uid is stamped by the clock, the rest is fixed. *)
Variable blank_notes : Z -> Entry.

(** The [for i, event in enumerate(events)] loop from index [i] on, [n] being
    [len(events)]. *)
Fixpoint spaces_loop (i n : Z) (events : list Entry) : list Entry :=
  match events with
  | [] => []
  | event :: rest =>
      (event ::
       (if ((i + 1) mod 3 =? 0) && (i <? n - 1) then [blank_notes i] else []))
      ++ spaces_loop (i + 1) n rest
  end.

Definition add_strategic_writing_spaces (events : list Entry) : list Entry :=
  if negb (nonempty events) then events
  else spaces_loop 0 (len events) events.

End Spaces.

(** Entries for examples: an event by its summary, or the blank made at
    index [i]. *)
Definition sample_blank (i : Z) : string + Z := inr i.

Definition sample_is_blank (entry : string + Z) : bool :=
  match entry with
  | inl _ => false
  | inr _ => true
  end.

Definition five_entries : list (string + Z) :=
  [inl "Standup"; inl "Review"; inl "Lunch"; inl "Gym"; inl "Dinner"]%string.

End WritingSpaces.


(** ** Display icons: [get_event_icon] *)

Module Icons.

(** [any(keyword in lower_summary for keyword in keywords)] *)
Definition any_keyword_in (lower_summary : string) (keywords : list string) : bool :=
  existsb (fun keyword => Text.contains keyword lower_summary) keywords.

(** The loop over [table.items()], in insertion order. *)
Fixpoint first_matching_icon (table : list (string * list string))
  (lower_summary : string) : option string :=
  match table with
  | [] => None
  | (icon, keywords) :: rest =>
      if any_keyword_in lower_summary keywords then Some icon
      else first_matching_icon rest lower_summary
  end.

Definition default_icon : string := "🗓️".

Definition get_event_icon_in (table : list (string * list string)) (summary : string)
  : string :=
  let lower_summary := Text.lower summary in
  match first_matching_icon table lower_summary with
  | Some icon => icon
  | None => default_icon
  end.

(** The module's table, each row with its keywords as written (adjacent
    string literals without a comma are one keyword). *)
Definition EVENT_ICON_KEYWORDS : list (string * list string) :=
  [
  ("👥",
   ["sync"; "meeting"; "call"; "catch-up"; "zoom"; "teams"; "hangout";
    "conference"; "webinar"; "appt"; "appointment"]);
  ("✈️",
   ["flight"; "airport"; "flew"; "depart"; "arrival"; "boarding"; "gate";
    "travel"; "train"; "bus"; "mrt"; "transport"; "commute"; "transit"]);
  ("🍴",
   ["lunch"; "dinner"; "breakfast"; "meal"; "restaurant"; "brunch";
    "supper"; "tea"; "cafe"; "coffee"; "food"; "eat"; "hawker"; "makan";
    "dabao"; "tapao"; "zi char"; "cai png"; "kopitiam"; "hawker centre";
    "teh tarik"; "kopi"; "teh"; "coffee shop"]);
  ("💪",
   ["gym"; "workout"; "run"; "exercise"; "training"; "physio"; "swim";
    "cycle"; "yoga"; "pilates"; "#fit"; "#fitness"; "#workout"; "#training";
    "virgin active"; "ActiveSG"; "bodypump"; "GRID training"; "boxing";
    "barre"; "lift"; "reformer"]);
  ("⚕️",
   ["doctor"; "dentist"; "appointment"; "clinic"; "hospital"; "checkup";
    "therapy"; "med"; "medical"; "vaccine"; "physio"; "poly"; "polyclinic";
    "TCM"; "sinseh"]);
  ("🎂",
   ["birthday"; "bday"; "anniversary"; "celebration"; "party"; "cake"]);
  ("🫡",
   ["volunteer"; "SAFVC"]);
  ("✝️",
   ["mass"; "church"; "prayer"; "bible"; "worship"; "religion"; "rite 1";
    "rite 2"; "choir practice"; "choir rehearsal"]);
  ("❤️",
   ["date night"; "ES"; "date"; "romantic"; "anniversary"; "valentine";
    "#fun"; "#datenight"; "#XXX"; "#love"; "SS"]);
  ("🎉",
   ["party"; "celebration"; "festival"; "gathering"; "event"; "ceremony";
    "wedding"; "reunion"; "farewell"; "shindig"]);
  ("🏖️",
   ["vacation"; "holiday"; "beach"; "trip"; "getaway"; "resort"]);
  ("🏠",
   ["home"; "house"; "family"; "chores"; "cleaning"; "maintenance";
    "domestic"]);
  ("🛒",
   ["shopping"; "groceries"; "market"; "store"; "supermarket"; "mall";
    "pasar"; "provision shop"; "mama shop"; "NTUC"; "Giant"; "Cold Storage"]);
  ("🧑‍💻",
   ["work"; "project"; "deadline"; "coding"; "development"; "deploy";
    "release"; "review"; "sprint"; "office"; "standup"; "retro"; "#adm";
    "admin"; "administration"; "1:1"; "townhall"; "all hands"; "skip level";
    "one-on-one"]);
  ("📚",
   ["study"; "class"; "lecture"; "exam"; "test"; "school"; "university";
    "course"; "assignment"; "reading"; "homework"; "revision"]);
  ("🎬",
   ["movie"; "film"; "cinema"; "theater"; "theatre"; "show"; "screening";
    "netflix"; "disney"; "hbo"; "prime"]);
  ("🎵",
   ["concert"; "music"; "gig"; "recital"; "performance"; "band";
    "orchestra"; "song"; "opera"]);
  ("⚽",
   ["soccer"; "tennis"; "league"; "sports"; "golf"; "baseball";
    "volleyball"; "hockey"; "run"; "marathon"; "RMCF"; "Real Madrid"]);
  ("🧘",
   ["meditate"; "mindfulness"; "relax"; "wellness"; "spa"; "retreat"]);
  ("🚗",
   ["car"; "drive"; "roadtrip"; "service"; "mechanic"; "vehicle"; "uber";
    "lyft"; "taxi"; "grab"; "gojek"; "comfort delgro"; "SBS"; "SMRT"]);
  ("🌪️",
   ["iowa state university"; "isu"; "mbb"; "wbb"; "fb";
    "basketball,football"]);
  ("💯",
   ["interview"; "job"; "#job"; "career"; "application"; "offer"; "resume";
    "headhunt"]);
  ("🩺",
   ["health"; "doctor"; "checkup"; "clinic"; "hospital"; "appointment";
    "test"; "scan"; "medical"; "vaccine"]);
  ("🛏️",
   ["sleep"; "nap"; "rest"; "bedtime"; "zzz"; "asleep"; "haircut"]);
  ("🍼",
   ["baby"; "feeding"; "diaper"; "infant"; "toddler"; "childcarekid";
    "#KID"; "child"; "gynie"]);
  ("🔥",
   ["#mou"]);
  ("🚲",
   ["bike"; "bicycle"; "cycle"; "ebike"; "e-bike"; "cycling"; "biking"]);
  ("🐈",
   ["pet"; "vet"; "veterinarian,cat"; "kitten"; "🐈"; "focus";
    "DeweyDW CatDewey WellingtonWellington"]);
  ("⚠️",
   ["hold"; "#fuc"]);
  ("🗓️",
   ["event"; "reminder"; "note"; "todo"; "task"; "plan"; "schedule"])
  ]%string.

Definition get_event_icon (summary : string) : string :=
  get_event_icon_in EVENT_ICON_KEYWORDS summary.

(** A keyword with an ASCII capital in it. *)
Definition is_upper_ascii (c : ascii) : bool :=
  let n := nat_of_ascii c in (65 <=? n)%nat && (n <=? 90)%nat.

Fixpoint has_upper (s : string) : bool :=
  match s with
  | EmptyString => false
  | String c rest => is_upper_ascii c || has_upper rest
  end.

(** The table without the keywords that have a capital. *)
Definition without_capitals (table : list (string * list string))
  : list (string * list string) :=
  map (fun '(icon, keywords) => (icon, filter (fun k => negb (has_upper k)) keywords))
      table.

(** The table without the keywords an earlier row already lists. *)
Fixpoint without_repeats_from (seen : list string) (table : list (string * list string))
  : list (string * list string) :=
  match table with
  | [] => []
  | (icon, keywords) :: rest =>
      (icon, filter (fun k => negb (existsb (String.eqb k) seen)) keywords)
      :: without_repeats_from (seen ++ keywords) rest
  end.

Definition without_repeats (table : list (string * list string))
  : list (string * list string) := without_repeats_from [] table.

End Icons.

(** ** Which events the validator keeps *)

Module ValidatorSweep.
Import Time Events Validator.

(** [event] is the first holder of its identity key in [events] and the sweep
    does not drop it. *)
Definition first_of_its_key (events : list Event) (event : Event) : Prop :=
  exists before after : list Event,
    events = before ++ event :: after /\
    ~ In (key_of event) (map key_of before) /\
    dropped event = false.

(** Two events of one morning. *)
Definition review_at_ten : Event :=
  mkEvent "r1" "Review" "" ""
    (mkArrow (20000 * us_per_day + 10 * us_per_hour) UTC)
    (mkArrow (20000 * us_per_day + 11 * us_per_hour) UTC) false None false.

Definition standup_at_nine : Event :=
  mkEvent "s1" "Standup" "" ""
    (mkArrow (20000 * us_per_day + 9 * us_per_hour) UTC)
    (mkArrow (20000 * us_per_day + 10 * us_per_hour) UTC) false None false.

End ValidatorSweep.

(** ** What Pass 1 keeps as a master, and when it cannot finish *)

Module RecurrencePass1.
Import Time Events Recurrence.

(** Pass 1 keeps the component as a master. *)
Definition is_master (c : Component) : bool :=
  match cancellation_verdict c, RECURRENCE_ID c with
  | Ok false, None => true
  | _, _ => false
  end.

(** An all-day start with a datetime end: the span cannot be computed. *)
Definition mixed_span (c : Component) : bool :=
  match DTSTART c, DTEND c with
  | Some (Date _), Some (Naive _) | Some (Date _), Some (Aware _ _) => true
  | _, _ => false
  end.

(** A VEVENT that starts on a date and ends at noon. *)
Definition half_day_off : Component :=
  mkComponent (Some "off"%string) None None (Some "Half day off"%string) None None None
    (Some (Date 20000)) (Some (Naive (20000 * us_per_day + 12 * us_per_hour)))
    None []%list.

End RecurrencePass1.

(** ** The two horizon days: [is_event_for_day] *)

Module DayFilter.
Import Time Events.

(** [a.shift(days=n)] *)
Definition shift_days (a : Arrow) (n : Z) : Arrow :=
  mkArrow (instant a + n * us_per_day) (zone a).

(** The helper nested in [main]; both ends of an event are present and are
    Arrow values, so none of its guards fires. *)
Definition is_event_for_day (event : Event) (day_start day_end : Arrow) : bool :=
  if all_day event then arrow_eqb (floor_day (begin_local event)) day_start
  else arrow_ltb (begin_local event) day_end && arrow_ltb day_start (end_local event).

Definition today_start (now : Arrow) : Arrow := floor_day now.
Definition today_end (now : Arrow) : Arrow := shift_days (today_start now) 1.
Definition tomorrow_start (now : Arrow) : Arrow := today_end now.
Definition tomorrow_end (now : Arrow) : Arrow := shift_days (tomorrow_start now) 1.

Definition today_events (now : Arrow) (all_events : list Event) : list Event :=
  filter (fun event => is_event_for_day event (today_start now) (today_end now))
         all_events.

Definition tomorrow_events (now : Arrow) (all_events : list Event) : list Event :=
  filter (fun event => is_event_for_day event (tomorrow_start now) (tomorrow_end now))
         all_events.

End DayFilter.

(** ** One VEVENT at a time: [process_single_event] *)

Module SingleEvent.
Import Time Recurrence TimeNormalizer.

(** The event dictionary it builds; both ends are what [convert_to_local]
    returned, a date or a datetime. *)
Record RawEvent : Type := mkRawEvent {
  raw_uid : string;
  raw_summary : string;
  raw_description : string;
  raw_location : string;
  raw_begin_local : option dt;
  raw_end_local : option dt;
  raw_all_day : bool;
  raw_cal_name : option string;
  raw_is_recurring : bool
}.

(** [isinstance(x, datetime)] and [isinstance(x, date)] on what may be [None]. *)
Definition is_datetime (x : option dt) : bool :=
  match x with
  | Some (Naive _) | Some (Aware _ _) => true
  | _ => false
  end.

Definition is_date_instance (x : option dt) : bool :=
  match x with
  | Some _ => true
  | None => false
  end.

(** A value [date] or [datetime] can hold: the ordinal of a date and the wall
    clock of a datetime are within the range. *)
Definition representable (x : dt) : bool :=
  match x with
  | Date o => date_in_range o
  | Naive w => datetime_in_range w
  | Aware u z => datetime_in_range (u + utcoffset z)
  end.

(** [x + timedelta] and [x - timedelta]: [OverflowError] when the result
    leaves the range. *)
Definition checked_add (x : dt) (delta : Z) : result dt :=
  let y := dt_add x delta in
  if representable y then Ok y else Raise OverflowError.

Definition checked_add_to (x : option dt) (delta : Z) : result (option dt) :=
  match x with
  | Some value => let* moved := checked_add value delta in Ok (Some moved)
  | None => Ok None
  end.

Section Zones.

Variable pytz_timezone : string -> option tzinfo.
Variable same_zone_object : tzinfo -> tzinfo -> bool.

Definition process_single_event (component : Component) (cal_name : option string)
  (timezone_str : string) : result (option RawEvent) :=
  let uid := Text.text_or_empty (UID component) in
  let summary := Text.text_or_empty (SUMMARY component) in
  let description := Text.text_or_empty (DESCRIPTION component) in
  let location := Text.text_or_empty (LOCATION component) in
  let status := Text.text_or_empty (STATUS component) in
  if String.eqb (Text.upper status) "CANCELLED" then Ok None
  else
    match DTSTART component with
    | None => Ok None
    | Some start =>
        let has_explicit_end :=
          match DTEND component with Some _ => true | None => false end in
        let end_ := match DTEND component with Some e => e | None => start end in
        let* start_local :=
          convert_to_local pytz_timezone same_zone_object (Some start) timezone_str in
        let* end_local :=
          convert_to_local pytz_timezone same_zone_object (Some end_) timezone_str in
        let all_day := is_date start in
        let* end_local :=
          if negb has_explicit_end && negb all_day && is_datetime start_local
          then checked_add_to start_local us_per_hour
          else Ok end_local in
        let* end_local :=
          if all_day && is_date_instance end_local
          then checked_add_to end_local (- us_per_day)
          else Ok end_local in
        Ok (Some (mkRawEvent uid summary description location
                             start_local end_local all_day cal_name false))
    end.

End Zones.

(** How the end of a returned event relates to the VEVENT it came from. *)
Definition end_rule (component : Component) (event : RawEvent) : Prop :=
  match DTSTART component, DTEND component with
  | Some (Date s), None =>
      raw_begin_local event = Some (Date s) /\
      raw_end_local event = Some (Date (s - 1))
  | Some (Date s), Some (Date e) =>
      raw_begin_local event = Some (Date s) /\
      raw_end_local event = Some (Date (e - 1))
  | Some (Naive _), None | Some (Aware _ _), None =>
      exists b, raw_begin_local event = Some b /\
                raw_end_local event = Some (dt_add b us_per_hour)
  | _, _ => True
  end.

(** An offset a [tzinfo] may have: less than a day either way. *)
Definition valid_offset (z : tzinfo) : bool :=
  (- us_per_day <? utcoffset z) && (utcoffset z <? us_per_day).

(** Two days clear of both ends of the range, an aware value by its UTC
    reading. *)
Definition well_inside (x : dt) : bool :=
  match x with
  | Date o => (date_min + 2 <=? o) && (o <=? date_max - 2)
  | Naive w =>
      (datetime_min + 2 * us_per_day <=? w) && (w <=? datetime_max - 2 * us_per_day)
  | Aware u z =>
      valid_offset z &&
      ((datetime_min + 2 * us_per_day <=? u) && (u <=? datetime_max - 2 * us_per_day))
  end.

(** A day clear of both ends of the range, a datetime on its wall clock: one
    more day or hour still fits. *)
Definition clear_of_the_ends (x : dt) : bool :=
  match x with
  | Date o => (date_min + 1 <=? o) && (o <=? date_max - 1)
  | Naive w =>
      (datetime_min + us_per_day <=? w) && (w <=? datetime_max - us_per_day)
  | Aware u z =>
      (datetime_min + us_per_day <=? u + utcoffset z)
      && (u + utcoffset z <=? datetime_max - us_per_day)
  end.

(** Both ends of the VEVENT are well inside the range. *)
Definition span_well_inside (component : Component) : bool :=
  match DTSTART component with
  | Some s =>
      well_inside s &&
      match DTEND component with
      | Some e => well_inside e
      | None => true
      end
  | None => true
  end.

(** What the all-day VEVENT without DTEND of the samples becomes. *)
Definition gym_day : RawEvent :=
  mkRawEvent "gym" "Cancel gym membership" "" ""
    (Some (Date 20000)) (Some (Date 19999)) true None false.

(** An all-day VEVENT on the first day of the calendar, and a floating one
    half an hour before the end of the last. *)
Definition first_day : Component :=
  mkComponent (Some "first"%string) None None (Some "First day"%string) None None None
    (Some (Date date_min)) None None []%list.

Definition last_half_hour : Component :=
  mkComponent (Some "last"%string) None None (Some "Last call"%string) None None None
    (Some (Naive (datetime_max - us_per_hour / 2))) None None []%list.

End SingleEvent.

(** ** The calendar feed file: [load_calendar_feeds], [_save_calendar_feeds]

    The file is ASCII text, as calendar URLs are; [strip] removes the ASCII
    whitespace, which is what [str.strip()] does on such text. *)

Module Feeds.

Definition newline : ascii := "010"%char.
Definition carriage_return : ascii := "013"%char.

(** [c.isspace()] on a byte: tab to carriage return, the four separators
    FS to US, and the space. *)
Definition is_space (c : ascii) : bool :=
  let n := nat_of_ascii c in
  ((9 <=? n)%nat && (n <=? 13)%nat) || ((28 <=? n)%nat && (n <=? 32)%nat).

Fixpoint lstrip (s : string) : string :=
  match s with
  | EmptyString => EmptyString
  | String c rest => if is_space c then lstrip rest else s
  end.

Fixpoint rstrip (s : string) : string :=
  match s with
  | EmptyString => EmptyString
  | String c rest =>
      match rstrip rest with
      | EmptyString => if is_space c then EmptyString else String c EmptyString
      | kept => String c kept
      end
  end.

(** [s.strip()] *)
Definition strip (s : string) : string := rstrip (lstrip s).

(** [bool(s)] and [s.startswith('#')] *)
Definition nonblank (s : string) : bool :=
  match s with
  | EmptyString => false
  | String _ _ => true
  end.

Definition is_comment (s : string) : bool := String.prefix "#" s.

(** The comprehension of [load_calendar_feeds] over the lines of the file. *)
Definition feeds_of_lines (lines : list string) : list string :=
  map strip
      (filter (fun line => nonblank (strip line) && negb (is_comment (strip line)))
              lines).

(** Reading in text mode: every ["\r\n"] and lone ["\r"] arrives as ["\n"]. *)
Fixpoint universal_newlines (text : string) : string :=
  match text with
  | EmptyString => EmptyString
  | String c rest =>
      if Ascii.eqb c carriage_return then
        match rest with
        | String c' rest' =>
            if Ascii.eqb c' newline
            then String newline (universal_newlines rest')
            else String newline (universal_newlines rest)
        | EmptyString => String newline EmptyString
        end
      else String c (universal_newlines rest)
  end.

(** [for line in f]: the lines, each with its newline, the last maybe
    without. *)
Fixpoint lines_of (text : string) : list string :=
  match text with
  | EmptyString => []
  | String c rest =>
      if Ascii.eqb c newline then String c EmptyString :: lines_of rest
      else
        match lines_of rest with
        | [] => [String c EmptyString]
        | line :: more => String c line :: more
        end
  end.

Inductive load_error : Type := FileNotFoundError.

(** The file is absent ([None]) or has a text. *)
Definition load_calendar_feeds (file : option string) : load_error + list string :=
  match file with
  | None => inl FileNotFoundError
  | Some text => inr (feeds_of_lines (lines_of (universal_newlines text)))
  end.

(** What [_save_calendar_feeds] writes. *)
Definition saved_feeds_text (feeds : list string) : string :=
  String.append "# Calendar Feed URLs
"
  (String.append "# Add your calendar feed URLs here, one per line
"
  (String.append "# Lines starting with # are comments

"
  (String.concat EmptyString
     (map (fun feed => String.append feed (String newline EmptyString)) feeds)))).

(** A feed as the wizard collects it: stripped, not empty, no comment mark in
    front, no line break inside. *)
Fixpoint one_line (s : string) : bool :=
  match s with
  | EmptyString => true
  | String c rest =>
      negb (Ascii.eqb c newline) && negb (Ascii.eqb c carriage_return) && one_line rest
  end.

Definition clean_feed (feed : string) : Prop :=
  strip feed = feed /\ feed <> EmptyString /\ is_comment feed = false /\
  one_line feed = true.

Definition sample_feeds : list string :=
  ["https://calendar.example.org/home.ics"; "https://example.org/ical/work"]%string.

End Feeds.

(** * Properties *)

(** ** Pagination *)

Module DistributionFacts.
Import Distribution.

Lemma zsum_app l1 l2 : zsum (l1 ++ l2) = zsum l1 + zsum l2.
Proof. induction l1 as [|x l1 IH]; simpl; lia. Qed.

Lemma len_app {A} (l1 l2 : list A) : len (l1 ++ l2) = len l1 + len l2.
Proof. unfold len. rewrite length_app. lia. Qed.

Lemma len_nonneg {A} (l : list A) : 0 <= len l.
Proof. unfold len. lia. Qed.

Lemma len_zero_nil {A} (l : list A) : len l = 0 -> l = [].
Proof. destruct l; [reflexivity | unfold len; simpl; lia]. Qed.

Section Facts.
Context {Event Task : Type}.
Local Abbreviation PageT := (Page Event Task).

(** Closed form of the [while] loop. *)
Lemma fill_closed {A} (remaining : list A) : forall taken items target,
  fill remaining taken items target =
  (skipn (Z.to_nat (target - items)) remaining,
   taken ++ firstn (Z.to_nat (target - items)) remaining,
   items + Z.of_nat (Nat.min (Z.to_nat (target - items)) (length remaining))).
Proof.
  induction remaining as [|x rest IH]; intros taken items target; simpl.
  - rewrite skipn_nil, firstn_nil, app_nil_r, Nat.min_0_r. f_equal. lia.
  - destruct (items <? target) eqn:Hlt.
    + apply Z.ltb_lt in Hlt. rewrite IH.
      replace (Z.to_nat (target - items)) with (S (Z.to_nat (target - (items + 1)))) by lia.
      simpl. rewrite <- app_assoc. simpl. f_equal. lia.
    + apply Z.ltb_ge in Hlt.
      replace (Z.to_nat (target - items)) with 0%nat by lia.
      simpl. rewrite app_nil_r. f_equal. lia.
Qed.

Lemma fill_conserve {A} (remaining taken : list A) items target r t n :
  fill remaining taken items target = (r, t, n) ->
  t ++ r = taken ++ remaining /\ n = items + (len t - len taken).
Proof.
  rewrite fill_closed. intros H. injection H as <- <- <-.
  rewrite <- app_assoc, firstn_skipn. split; [reflexivity|].
  rewrite len_app. unfold len. rewrite length_firstn. lia.
Qed.

Lemma fill_exact {A} (remaining taken : list A) items target r t n :
  fill remaining taken items target = (r, t, n) ->
  items <= target ->
  n = Z.min target (items + len remaining).
Proof.
  rewrite fill_closed. intros H Hle. injection H as _ _ <-. unfold len. lia.
Qed.

Lemma fill_page_conserve page_idx n_targets max_items target er tr (p : PageT) er' tr' :
  fill_page page_idx n_targets max_items target er tr = (p, er', tr') ->
  events p ++ er' = er /\ tasks p ++ tr' = tr.
Proof.
  unfold fill_page.
  destruct (fill er [] 0 target) as [[er1 pe] n1] eqn:He.
  destruct (fill tr [] n1 target) as [[tr1 pt] n2] eqn:Ht.
  apply fill_conserve in He. apply fill_conserve in Ht.
  destruct He as [He _], Ht as [Ht _]. simpl in He, Ht.
  destruct ((n2 <? target) && (page_idx <? n_targets - 1) && (n2 <? max_items)).
  - destruct er1 as [|e er2]; [destruct tr1 as [|t tr2]|];
      intros H; injection H as <- <- <-; simpl;
      rewrite <- ?app_assoc; simpl; auto.
  - intros H; injection H as <- <- <-; simpl; auto.
Qed.

Lemma fill_page_exact page_idx n_targets max_items target er tr (p : PageT) er' tr' :
  fill_page page_idx n_targets max_items target er tr = (p, er', tr') ->
  0 <= target <= len er + len tr ->
  page_total p = target.
Proof.
  unfold fill_page.
  destruct (fill er [] 0 target) as [[er1 pe] n1] eqn:He.
  destruct (fill tr [] n1 target) as [[tr1 pt] n2] eqn:Ht.
  intros H Hr.
  assert (len (@nil Event) = 0 /\ len (@nil Task) = 0) as [Z1 Z2] by (split; reflexivity).
  pose proof (len_nonneg er) as Ner. pose proof (len_nonneg tr) as Ntr.
  assert (n1 = Z.min target (0 + len er)) as E1 by (apply (fill_exact _ _ _ _ _ _ _ He); lia).
  pose proof (fill_conserve _ _ _ _ _ _ _ He) as [_ C1].
  assert (n2 = Z.min target (n1 + len tr)) as E2 by (apply (fill_exact _ _ _ _ _ _ _ Ht); lia).
  pose proof (fill_conserve _ _ _ _ _ _ _ Ht) as [_ C2].
  assert (n2 = target) as -> by lia.
  rewrite Z.ltb_irrefl in H. simpl in H.
  injection H as <- <- <-. unfold page_total; simpl. lia.
Qed.

Lemma all_events_app (ps qs : list PageT) :
  all_events (ps ++ qs) = all_events ps ++ all_events qs.
Proof. unfold all_events. now rewrite map_app, concat_app. Qed.

Lemma all_tasks_app (ps qs : list PageT) :
  all_tasks (ps ++ qs) = all_tasks ps ++ all_tasks qs.
Proof. unfold all_tasks. now rewrite map_app, concat_app. Qed.

Lemma all_events_single (p : PageT) : all_events [p] = events p.
Proof. unfold all_events; simpl. apply app_nil_r. Qed.

Lemma all_tasks_single (p : PageT) : all_tasks [p] = tasks p.
Proof. unfold all_tasks; simpl. apply app_nil_r. Qed.

Lemma fill_pages_conserve max_items n_targets targets :
  forall page_idx (pages : list PageT) er tr pages' er' tr',
  fill_pages page_idx n_targets max_items targets pages er tr = (pages', er', tr') ->
  all_events pages' ++ er' = all_events pages ++ er /\
  all_tasks pages' ++ tr' = all_tasks pages ++ tr.
Proof.
  induction targets as [|t later IH]; intros page_idx pages er tr pages' er' tr'; simpl.
  - intros H; injection H as <- <- <-. auto.
  - destruct (fill_page page_idx n_targets max_items t er tr) as [[p er1] tr1] eqn:Hp.
    intros H. apply IH in H. destruct H as [H1 H2].
    apply fill_page_conserve in Hp. destruct Hp as [P1 P2].
    rewrite H1, H2, all_events_app, all_tasks_app, all_events_single, all_tasks_single.
    rewrite <- !app_assoc, P1, P2. auto.
Qed.

Lemma fill_pages_exact max_items n_targets targets :
  forall page_idx (pages : list PageT) er tr pages' er' tr',
  fill_pages page_idx n_targets max_items targets pages er tr = (pages', er', tr') ->
  Forall (fun t => 0 <= t) targets ->
  zsum targets = len er + len tr ->
  er' = [] /\ tr' = [] /\ page_sizes pages' = page_sizes pages ++ targets.
Proof.
  induction targets as [|t later IH]; intros page_idx pages er tr pages' er' tr'; simpl.
  - intros H _ Hs. injection H as <- <- <-.
    pose proof (len_nonneg er). pose proof (len_nonneg tr).
    rewrite app_nil_r. repeat split; apply len_zero_nil; lia.
  - destruct (fill_page page_idx n_targets max_items t er tr) as [[p er1] tr1] eqn:Hp.
    intros H Hpos Hs. inversion Hpos as [|? ? Ht Hlater]; subst.
    assert (0 <= zsum later) as Hz.
    { clear - Hlater. induction Hlater; simpl; lia. }
    pose proof (fill_page_exact _ _ _ _ _ _ _ _ _ Hp ltac:(lia)) as Hx.
    apply fill_page_conserve in Hp. destruct Hp as [P1 P2].
    assert (zsum later = len er1 + len tr1) as Hs'.
    { rewrite <- P1, <- P2, !len_app in Hs. unfold page_total in Hx. lia. }
    destruct (IH _ _ _ _ _ _ _ H Hlater Hs') as (-> & -> & Hsz).
    repeat split. rewrite Hsz. unfold page_sizes. rewrite map_app. simpl.
    rewrite Hx, <- app_assoc. reflexivity.
Qed.

Lemma place_leftovers_none max_items (pages : list PageT) :
  place_leftovers max_items pages [] [] = pages.
Proof. reflexivity. Qed.

Lemma place_leftovers_conserve max_items (pages : list PageT) er tr :
  all_events (place_leftovers max_items pages er tr) = all_events pages ++ er /\
  all_tasks (place_leftovers max_items pages er tr) = all_tasks pages ++ tr.
Proof.
  unfold place_leftovers.
  destruct (nonempty er || nonempty tr) eqn:Hne.
  2:{ apply orb_false_elim in Hne. destruct Hne as [H1 H2].
      destruct er; [|discriminate]. destruct tr; [|discriminate].
      now rewrite !app_nil_r. }
  assert (forall (ps : list PageT) e t,
    all_events (if nonempty e || nonempty t then ps ++ [mkPage e t] else ps)
      = all_events ps ++ e /\
    all_tasks (if nonempty e || nonempty t then ps ++ [mkPage e t] else ps)
      = all_tasks ps ++ t) as Htail.
  { intros ps e t. destruct (nonempty e || nonempty t) eqn:H.
    - rewrite all_events_app, all_tasks_app, all_events_single, all_tasks_single. auto.
    - apply orb_false_elim in H. destruct H as [H1 H2].
      destruct e; [|discriminate]. destruct t; [|discriminate].
      now rewrite !app_nil_r. }
  destruct (rev pages) as [|last_page front] eqn:Hrev.
  - apply Htail.
  - destruct (page_total last_page <? max_items).
    + destruct (fill er (events last_page) (page_total last_page) max_items)
        as [[er1 le] n1] eqn:He.
      destruct (fill tr (tasks last_page) n1 max_items) as [[tr1 lt] n2] eqn:Ht.
      apply fill_conserve in He. apply fill_conserve in Ht.
      destruct He as [He _], Ht as [Ht _].
      destruct (Htail (rev front ++ [mkPage le lt]) er1 tr1) as [T1 T2].
      rewrite T1, T2.
      assert (pages = rev front ++ [last_page]) as ->.
      { rewrite <- (rev_involutive pages), Hrev. reflexivity. }
      rewrite !all_events_app, !all_tasks_app, !all_events_single, !all_tasks_single.
      simpl. rewrite <- !app_assoc, He, Ht. auto.
    + apply Htail.
Qed.


Lemma targets_sum (t r : Z) (n : nat) :
  0 <= r ->
  zsum (map (fun i => if i <? r then t + 1 else t) (map Z.of_nat (seq 0 n)))
  = Z.of_nat n * t + Z.min r (Z.of_nat n).
Proof.
  intros Hr. induction n as [|n IH].
  - simpl. lia.
  - rewrite seq_S, !map_app, zsum_app, IH. cbn [map zsum fold_right Nat.add].
    destruct (Z.of_nat n <? r) eqn:Hlt;
      [apply Z.ltb_lt in Hlt | apply Z.ltb_ge in Hlt]; lia.
Qed.

Lemma targets_bound (t r hi n : Z) :
  0 <= t -> (0 < r -> t + 1 <= hi) -> t <= hi ->
  Forall (fun x => 0 <= x <= hi)
         (map (fun i => if i <? r then t + 1 else t) (py_range n)).
Proof.
  intros Ht Hr Hhi. apply Forall_forall. intros x Hx.
  apply in_map_iff in Hx. destruct Hx as (i & <- & Hi).
  unfold py_range in Hi. apply in_map_iff in Hi. destruct Hi as (k & <- & _).
  destruct (Z.of_nat k <? r) eqn:Hlt; [|lia].
  apply Z.ltb_lt in Hlt. assert (0 < r) as Hpos by lia. specialize (Hr Hpos). lia.
Qed.

Lemma page_targets_of_plain (p t r : Z) :
  0 <= t ->
  page_targets_of p t r
  = map (fun i => if i <? r then t + 1 else t) (py_range p).
Proof.
  intros Ht. unfold page_targets_of. rewrite map_map.
  apply map_ext. intros i.
  destruct (p >? 1); destruct (i <? r); lia.
Qed.

(** Arithmetic of the page count: [p] is the ceiling of [total / max_items]
    and every target fits a page. *)
Lemma min_pages_ceiling (total max_items : Z) :
  0 < max_items ->
  let p := (total + max_items - 1) / max_items in
  (p - 1) * max_items < total <= p * max_items.
Proof.
  intros Hm p.
  pose proof (Z.div_mod (total + max_items - 1) max_items ltac:(lia)) as Hd.
  pose proof (Z.mod_pos_bound (total + max_items - 1) max_items Hm) as Hb.
  fold p in Hd. nia.
Qed.

Lemma target_fits (total max_items p : Z) :
  0 < p -> 0 <= total <= p * max_items ->
  0 <= total / p /\ total / p <= max_items /\
  (0 < total mod p -> total / p + 1 <= max_items).
Proof.
  intros Hp Ht.
  pose proof (Z.div_mod total p ltac:(lia)) as Hd.
  pose proof (Z.mod_pos_bound total p Hp) as Hb.
  assert (0 <= total / p) by (apply Z.div_pos; lia).
  repeat split; [lia | nia | nia].
Qed.

(** The multi-page path, once the three guards have been passed. *)
Lemma distribute_split (E : list Event) (T : list Task) (max_items : Z) :
  0 < max_items -> max_items < len E + len T -> len E + len T <= 1000 ->
  let total := len E + len T in
  let p := (total + max_items - 1) / max_items in
  exists pages : list PageT,
    distribute_items_across_pages E T max_items = Ok pages /\
    page_sizes pages
    = map (fun i => if i <? total mod p then total / p + 1 else total / p) (py_range p) /\
    all_events pages = E /\ all_tasks pages = T /\
    Forall (fun pg => page_total pg <= max_items) pages.
Proof.
  intros Hm Hgt Hle total p.
  pose proof (min_pages_ceiling total max_items Hm) as Hceil. cbv zeta in Hceil.
  fold p in Hceil.
  assert (2 <= p) as Hp by nia.
  destruct (target_fits total max_items p ltac:(lia) ltac:(lia)) as (Ht0 & Ht1 & Ht2).
  pose proof (Z.mod_pos_bound total p ltac:(lia)) as Hr.
  unfold distribute_items_across_pages.
  replace (len E + len T >? 1000) with false by (symmetry; lia).
  replace (negb (nonempty E) && negb (nonempty T)) with false.
  2:{ destruct E, T; try reflexivity. unfold len in Hgt; simpl in Hgt. lia. }
  replace (len E + len T <=? max_items) with false by (symmetry; lia).
  fold total. unfold py_floordiv, py_mod.
  replace (max_items =? 0) with false by (symmetry; lia). cbn [bind]. fold p.
  replace (p =? 0) with false by (symmetry; lia). cbn [bind].
  rewrite page_targets_of_plain by exact Ht0.
  set (targets := map _ (py_range p)).
  destruct (fill_pages 0 (len targets) max_items targets [] E T)
    as [[pages er] tr] eqn:Hfp.
  pose proof (targets_bound (total / p) (total mod p) max_items p Ht0 Ht2 Ht1) as Hb.
  fold targets in Hb.
  assert (zsum targets = len E + len T) as Hsum.
  { unfold targets, py_range. rewrite targets_sum by lia.
    pose proof (Z.div_mod total p ltac:(lia)). fold total. lia. }
  destruct (fill_pages_exact _ _ _ _ _ _ _ _ _ _ Hfp) as (-> & -> & Hsz); auto.
  { eapply Forall_impl; [|exact Hb]. simpl. intros; lia. }
  apply fill_pages_conserve in Hfp. destruct Hfp as [C1 C2].
  rewrite !app_nil_r in C1, C2. simpl in C1, C2, Hsz.
  exists pages. rewrite place_leftovers_none. repeat split; auto.
  apply Forall_forall. intros pg Hpg.
  assert (In (page_total pg) targets) as Hin.
  { rewrite <- Hsz. unfold page_sizes. now apply in_map. }
  rewrite Forall_forall in Hb. apply Hb in Hin. lia.
Qed.



Lemma small_input_cases (E : list Event) (T : list Task) (max_items : Z) :
  len E + len T <= 1000 -> len E + len T <= max_items ->
  distribute_items_across_pages E T max_items = Ok [mkPage E T].
Proof.
  intros Hle Hfit. unfold distribute_items_across_pages.
  replace (len E + len T >? 1000) with false by (symmetry; lia).
  destruct E, T; try reflexivity; cbn [nonempty negb andb];
    replace (_ <=? max_items) with true by (symmetry; lia); reflexivity.
Qed.

Lemma sum_lengths_concat {A} (ls : list (list A)) :
  sum_lengths ls = length (concat ls).
Proof. unfold sum_lengths. symmetry. apply length_concat. Qed.

Lemma distribute_total (E : list Event) (T : list Task) (max_items : Z) :
  0 < max_items -> len E + len T <= 1000 ->
  exists pages : list PageT,
    distribute_items_across_pages E T max_items = Ok pages /\
    all_events pages = E /\ all_tasks pages = T /\
    Forall (fun pg => page_total pg <= max_items) pages.
Proof.
  intros Hm Hle.
  destruct (Z_le_gt_dec (len E + len T) max_items) as [Hfit|Hbig].
  - exists [mkPage E T]. rewrite small_input_cases by assumption.
    rewrite all_events_single, all_tasks_single. repeat split.
    constructor; [exact Hfit | constructor].
  - destruct (distribute_split E T max_items Hm ltac:(lia) Hle)
      as (pages & H & _ & He & Ht & Hc).
    exists pages. auto.
Qed.

(** Whatever the capacity, pages that are returned below the safety limit
    hold the input in order. *)
Lemma conservation_whenever_returned
  (E : list Event) (T : list Task) (max_items : Z) (pages : list PageT) :
  len E + len T <= 1000 ->
  distribute_items_across_pages E T max_items = Ok pages ->
  all_events pages = E /\ all_tasks pages = T.
Proof.
  intros Hle. unfold distribute_items_across_pages.
  replace (len E + len T >? 1000) with false by (symmetry; lia).
  destruct (negb (nonempty E) && negb (nonempty T)) eqn:Hempty.
  - intros H; injection H as <-. destruct E, T; try discriminate. auto.
  - destruct (len E + len T <=? max_items).
    + intros H; injection H as <-.
      now rewrite all_events_single, all_tasks_single.
    + destruct (py_floordiv (len E + len T + max_items - 1) max_items) as [p|];
        simpl; [|discriminate].
      destruct (py_floordiv (len E + len T) p) as [t|]; simpl; [|discriminate].
      destruct (py_mod (len E + len T) p) as [r|]; simpl; [|discriminate].
      destruct (fill_pages _ _ _ _ _ _ _) as [[ps er] tr] eqn:Hfp.
      intros H; injection H as <-.
      apply fill_pages_conserve in Hfp. destruct Hfp as [C1 C2].
      destruct (place_leftovers_conserve max_items ps er tr) as [L1 L2].
      rewrite L1, L2, C1, C2. auto.
Qed.

(** C1 (amended): for every event list, task list and positive capacity
    whose combined length is at most 1000, the distribution returns pages
    whose event counts add up to the number of events, whose task counts add
    up to the number of tasks, and whose event lists (task lists) concatenated
    in page order are the input events (tasks), element for element. *)
Theorem conservation_below_safety_limit (E : list Event) (T : list Task) (cap : Z) :
  0 < cap -> len E + len T <= 1000 -> conserves E T cap.
Proof.
  intros Hm Hle.
  destruct (distribute_total E T cap Hm Hle) as (pages & H & He & Ht & _).
  exists pages. rewrite !sum_lengths_concat.
  fold (all_events pages). fold (all_tasks pages). rewrite He, Ht. auto.
Qed.

(** C2: for every input with a positive [max_items] the distribution returns
    pages and every one of them holds at most [max_items] items; the page of
    the one-page shortcut is no exception, since it is only taken when the
    total is at most [max_items]. *)
Theorem capacity_respected (E : list Event) (T : list Task) (max_items : Z) :
  0 < max_items -> within_capacity E T max_items.
Proof.
  intros Hm. unfold within_capacity.
  destruct (Z_le_gt_dec (len E + len T) 1000) as [Hle|Hbig].
  - destruct (distribute_total E T max_items Hm Hle) as (pages & H & _ & _ & Hc).
    exists pages. auto.
  - exists [mkPage [] []]. unfold distribute_items_across_pages.
    replace (len E + len T >? 1000) with true by (symmetry; lia).
    split; [reflexivity|]. constructor; [|constructor].
    unfold page_total, len; simpl. lia.
Qed.

(** C3 (amended): when the total exceeds a positive [max_items] and is at
    most 1000, [p = (total + max_items - 1) // max_items] is the ceiling of
    [total / max_items], and exactly [p] pages are returned, of [total // p]
    items each with one more on the first [total % p]; 20 items with
    [max_items = 8] give pages of 7, 7 and 6 items. *)
Theorem balanced_targets_below_safety_limit
  (E : list Event) (T : list Task) (max_items : Z) :
  0 < max_items -> max_items < len E + len T -> len E + len T <= 1000 ->
  let total := len E + len T in
  let p := (total + max_items - 1) / max_items in
  (p - 1) * max_items < total <= p * max_items /\
  balanced_split E T max_items /\
  (total = 20 -> max_items = 8 ->
   exists pages : list PageT,
     distribute_items_across_pages E T max_items = Ok pages /\
     page_sizes pages = [7; 7; 6]).
Proof.
  intros Hm Hgt Hle total p.
  destruct (distribute_split E T max_items Hm Hgt Hle) as (pages & H & Hsz & _).
  fold total in Hsz. fold p in Hsz.
  assert (page_sizes pages
          = map (fun i => total / p + (if i <? total mod p then 1 else 0)) (py_range p))
    as Hsz'.
  { rewrite Hsz. apply map_ext. intros i. destruct (i <? total mod p); lia. }
  split; [apply (min_pages_ceiling total max_items Hm)|]. split.
  - exists pages. fold total. fold p. repeat split; auto.
    pose proof (min_pages_ceiling total max_items Hm) as Hc. cbv zeta in Hc. fold p in Hc.
    assert (0 <= p) by nia.
    unfold len. rewrite <- (length_map page_total pages).
    fold (page_sizes pages). rewrite Hsz'. unfold py_range.
    rewrite !length_map, length_seq. lia.
  - intros H20 H8. exists pages. split; [exact H|].
    rewrite Hsz'. unfold p. rewrite H20, H8. reflexivity.
Qed.

(** C4 (amended): six events and four tasks with [max_items = 6] give two
    pages of five items: the first five events, then the sixth event followed
    by the four tasks. *)
Theorem six_events_four_tasks_two_pages
  (e1 e2 e3 e4 e5 e6 : Event) (t1 t2 t3 t4 : Task) :
  distribute_items_across_pages [e1; e2; e3; e4; e5; e6] [t1; t2; t3; t4] 6
  = Ok [mkPage [e1; e2; e3; e4; e5] []; mkPage [e6] [t1; t2; t3; t4]].
Proof. reflexivity. Qed.

(** C10: when the events and tasks together number more than 1000, the
    result is one page with no events and no tasks, whatever [max_items]. *)
Theorem oversized_input_discarded (E : list Event) (T : list Task) (max_items : Z) :
  len E + len T > 1000 ->
  distribute_items_across_pages E T max_items = Ok [mkPage [] []].
Proof.
  intros Hbig. unfold distribute_items_across_pages.
  replace (len E + len T >? 1000) with true by (symmetry; lia). reflexivity.
Qed.

End Facts.

(** Outside the contract: with a negative capacity the empty input still
    yields its one empty page, and a capacity of zero divides by zero. *)
Lemma nonpositive_capacity :
  distribute_items_across_pages (@nil nat) (@nil string) (-1) = Ok [mkPage [] []] /\
  distribute_items_across_pages (sample_events 3) sample_tasks 0
  = Raise ZeroDivisionError.
Proof. split; reflexivity. Qed.

(** C1 as stated fails: 1001 events with capacity 8 come back as one empty
    page. *)
Lemma conservation_counterexample : ~ conserves (sample_events 1001) (@nil string) 8.
Proof.
  intros (pages & H & _ & _ & He & _).
  vm_compute in H. injection H as <-. discriminate He.
Qed.

Lemma conservation_witness :
  0 < 6 /\ len (sample_events 9) + len sample_tasks <= 1000 /\
  conserves (sample_events 9) sample_tasks 6.
Proof.
  split; [reflexivity|]. split; [vm_compute; discriminate|].
  apply conservation_below_safety_limit; [reflexivity | vm_compute; discriminate].
Defined.

Lemma capacity_witness : 0 < 6 /\ within_capacity (sample_events 9) sample_tasks 6.
Proof. split; [reflexivity|]. apply capacity_respected. reflexivity. Defined.

Lemma balanced_witness :
  0 < 8 /\ 8 < len (sample_events 16) + len sample_tasks /\
  len (sample_events 16) + len sample_tasks <= 1000 /\
  balanced_split (sample_events 16) sample_tasks 8 /\
  exists pages : list (Page nat string),
    distribute_items_across_pages (sample_events 16) sample_tasks 8 = Ok pages /\
    page_sizes pages = [7; 7; 6].
Proof.
  split; [reflexivity|]. split; [reflexivity|]. split; [vm_compute; discriminate|].
  destruct (balanced_targets_below_safety_limit (sample_events 16) sample_tasks 8)
    as (_ & Hsplit & H20); [reflexivity | reflexivity | vm_compute; discriminate |].
  split; [exact Hsplit | apply H20; reflexivity].
Defined.

Lemma oversized_witness :
  len (sample_events 1001) + len sample_tasks > 1000 /\
  distribute_items_across_pages (sample_events 1001) sample_tasks 6
  = Ok [mkPage [] []].
Proof.
  split; [reflexivity|]. apply oversized_input_discarded. reflexivity.
Defined.

(** C3 as stated fails: 1001 items exceed [max_items = 8], yet one page comes
    back where the ceiling is 126. *)
Lemma balanced_counterexample :
  8 < len (sample_events 1001) + len (@nil string) /\
  ~ balanced_split (sample_events 1001) (@nil string) 8.
Proof.
  split; [vm_compute; reflexivity|].
  intros (pages & H & Hn & _).
  vm_compute in H. injection H as <-. vm_compute in Hn. discriminate Hn.
Qed.

(** C4 as stated fails: the result is not a single page of the six events. *)
Lemma single_page_counterexample :
  ~ exists pg : Page nat string,
      distribute_items_across_pages (sample_events 6) sample_tasks 6 = Ok [pg] /\
      events pg = sample_events 6 /\ tasks pg = [].
Proof.
  intros (pg & H & _). vm_compute in H. discriminate H.
Qed.

End DistributionFacts.

(** ** Time normalisation *)

Module TimeNormalizerFacts.
Import Time TimeNormalizer.

Lemma datetime_astimezone_outcomes (same_zone_object : tzinfo -> tzinfo -> bool)
  (u : Z) (mytz tz : tzinfo) :
  datetime_astimezone same_zone_object u mytz tz
  = if same_zone_object mytz tz then Ok (Aware u mytz)
    else if datetime_in_range u && datetime_in_range (u + utcoffset tz)
         then Ok (Aware u tz) else Raise OverflowError.
Proof.
  unfold datetime_astimezone.
  destruct (same_zone_object mytz tz); [reflexivity|].
  destruct (datetime_in_range u); [|reflexivity].
  destruct (datetime_in_range (u + utcoffset tz)); reflexivity.
Qed.

(** The conversion of an aware value, case by case. *)
Lemma convert_to_local_aware (pytz_timezone : string -> option tzinfo)
  (same_zone_object : tzinfo -> tzinfo -> bool)
  (u : Z) (z : tzinfo) (timezone_str : string) :
  convert_to_local pytz_timezone same_zone_object (Some (Aware u z)) timezone_str
  = match pytz_timezone timezone_str with
    | Some local_tz =>
        if same_zone_object z local_tz then Ok (Some (Aware u z))
        else if datetime_in_range u && datetime_in_range (u + utcoffset local_tz)
             then Ok (Some (Aware u local_tz)) else Raise OverflowError
    | None => Raise UnknownTimeZoneError
    end.
Proof.
  unfold convert_to_local.
  destruct (pytz_timezone timezone_str) as [local_tz|]; [|reflexivity].
  rewrite datetime_astimezone_outcomes.
  destruct (same_zone_object z local_tz); [reflexivity|].
  destruct (_ && _); reflexivity.
Qed.

(** C7 (amended): whatever the zone database and the timezone identifier, a
    calendar date, a naive instant or an absent value is returned unchanged
    without an exception.  An aware instant whose identifier names a zone is
    returned converted when its readings in UTC and in that zone are both
    within the datetime range, and unchanged when its zone object is the
    zone's own.  An exception escapes in two cases only: the lookup's, exactly
    when the value is aware and the identifier names no zone; and
    [OverflowError], exactly when the value is aware, the identifier names a
    zone whose object is not the value's, and one of the two readings is
    outside the range. *)
Theorem convert_to_local_outcomes
  (pytz_timezone : string -> option tzinfo)
  (same_zone_object : tzinfo -> tzinfo -> bool)
  (x : option dt) (timezone_str : string) :
  let converted := convert_to_local pytz_timezone same_zone_object x timezone_str in
  (is_aware x = false -> converted = Ok x) /\
  (forall u z local_tz, x = Some (Aware u z) ->
     pytz_timezone timezone_str = Some local_tz ->
     same_zone_object z local_tz = false ->
     datetime_in_range u = true ->
     datetime_in_range (u + utcoffset local_tz) = true ->
     converted = Ok (Some (Aware u local_tz))) /\
  (forall u z local_tz, x = Some (Aware u z) ->
     pytz_timezone timezone_str = Some local_tz ->
     same_zone_object z local_tz = true ->
     converted = Ok x) /\
  (converted = Raise UnknownTimeZoneError <->
   is_aware x = true /\ pytz_timezone timezone_str = None) /\
  (converted = Raise OverflowError <->
   exists u z local_tz,
     x = Some (Aware u z) /\ pytz_timezone timezone_str = Some local_tz /\
     same_zone_object z local_tz = false /\
     (datetime_in_range u = false \/
      datetime_in_range (u + utcoffset local_tz) = false)) /\
  (forall ex, converted = Raise ex ->
     ex = UnknownTimeZoneError \/ ex = OverflowError).
Proof.
  cbv zeta.
  assert (forall y : option dt, is_aware y = false ->
            convert_to_local pytz_timezone same_zone_object y timezone_str = Ok y)
    as Hplain by (intros [[o|w|u z]|]; simpl; intros H; try reflexivity; discriminate).
  destruct x as [[o|w|u z]|];
    try (rewrite Hplain by reflexivity;
         split; [reflexivity|]; split; [intros u' z' tz' H; discriminate H|];
         split; [intros u' z' tz' H; discriminate H|];
         split; [split; [discriminate | intros [H _]; discriminate H]|];
         split; [split; [discriminate
                        | intros (u' & z' & tz' & H & _); discriminate H]|];
         discriminate).
  rewrite convert_to_local_aware.
  split; [discriminate|]. split; [|split; [|split; [|split]]].
  - intros u' z' local_tz H Hz Hobj Hu Hl. injection H as <- <-.
    now rewrite Hz, Hobj, Hu, Hl.
  - intros u' z' local_tz H Hz Hobj. injection H as <- <-.
    now rewrite Hz, Hobj.
  - split.
    + destruct (pytz_timezone timezone_str) as [local_tz|]; [|auto].
      destruct (same_zone_object z local_tz); [discriminate|].
      destruct (_ && _); discriminate.
    + intros [_ ->]. reflexivity.
  - split.
    + destruct (pytz_timezone timezone_str) as [local_tz|]; [|discriminate].
      destruct (same_zone_object z local_tz) eqn:Hobj; [discriminate|].
      destruct (datetime_in_range u) eqn:Hu;
        destruct (datetime_in_range (u + utcoffset local_tz)) eqn:Hl;
        simpl; try discriminate; intros _; exists u, z, local_tz; auto.
    + intros (u' & z' & local_tz & H & Hz & Hobj & Hout). injection H as <- <-.
      rewrite Hz, Hobj.
      destruct Hout as [-> | ->]; [reflexivity|]. now rewrite andb_false_r.
  - intros ex. destruct (pytz_timezone timezone_str) as [local_tz|].
    + destruct (same_zone_object z local_tz); [discriminate|].
      destruct (_ && _); [discriminate|].
      intros H; injection H as <-. now right.
    + intros H; injection H as <-. now left.
Qed.

Lemma convert_to_local_witness :
  convert_to_local etc_zones no_shared_objects (Some (Naive 42)) "Mars/Olympus_Mons"
  = Ok (Some (Naive 42)) /\
  convert_to_local etc_zones no_shared_objects (Some (Aware 42 UTC)) "Etc/GMT+5"
  = Ok (Some (Aware 42 (mkTz (-5 * us_per_hour)))) /\
  convert_to_local etc_zones database_objects (Some (Aware datetime_min UTC)) "UTC"
  = Ok (Some (Aware datetime_min UTC)).
Proof.
  split; [|split].
  - apply (proj1 (convert_to_local_outcomes etc_zones no_shared_objects
                    (Some (Naive 42)) "Mars/Olympus_Mons")).
    reflexivity.
  - apply (proj1 (proj2 (convert_to_local_outcomes etc_zones no_shared_objects
                           (Some (Aware 42 UTC)) "Etc/GMT+5")) 42 UTC);
      reflexivity.
  - apply (proj1 (proj2 (proj2 (convert_to_local_outcomes etc_zones database_objects
                                  (Some (Aware datetime_min UTC)) "UTC")))
             datetime_min UTC UTC); reflexivity.
Defined.

(** C7 as stated fails: an aware instant with an identifier the database does
    not know yields no value, the lookup's exception escapes. *)
Lemma convert_to_local_counterexample :
  convert_to_local etc_zones no_shared_objects (Some (Aware 0 UTC)) "Mars/Olympus_Mons"
  = Raise UnknownTimeZoneError /\
  ~ exists r,
      convert_to_local etc_zones no_shared_objects (Some (Aware 0 UTC))
                       "Mars/Olympus_Mons" = Ok r.
Proof.
  split; [reflexivity|]. intros [r H]. vm_compute in H. discriminate H.
Qed.

(** The first instant of the range, read in UTC, has no reading five hours
    behind UTC: the conversion raises. *)
Lemma convert_to_local_overflow :
  convert_to_local etc_zones no_shared_objects (Some (Aware datetime_min UTC)) "Etc/GMT+5"
  = Raise OverflowError.
Proof. reflexivity. Qed.

End TimeNormalizerFacts.

(** ** Recurrence resolution *)

Module RecurrenceFacts.
Import Time Events Recurrence.

(** *** Pass 1 *)

Lemma dt_eqb_refl (x : dt) : dt_eqb x x = true.
Proof. destruct x; simpl; apply Z.eqb_refl. Qed.

Lemma key_eqb_refl (k : Key) : key_eqb k k = true.
Proof.
  destruct k as [u [x|]]; unfold key_eqb; simpl; rewrite String.eqb_refl; simpl;
    [apply dt_eqb_refl | reflexivity].
Qed.

Lemma key_in_set_add (k : Key) (keys : list Key) : key_in k (set_add k keys) = true.
Proof.
  unfold set_add. destruct (key_in k keys) eqn:H; [exact H|].
  unfold key_in. rewrite existsb_app. simpl. rewrite key_eqb_refl.
  now rewrite orb_true_r.
Qed.

Lemma keyword_verdict (c : Component) (v : bool) :
  mentions_cancelled (Text.text_or_empty (SUMMARY c))
                     (Text.text_or_empty (DESCRIPTION c)) = true ->
  cancellation_verdict c = Ok v -> v = true.
Proof.
  intros Hm. unfold cancellation_verdict. rewrite Hm, orb_true_r. simpl.
  destruct (DTSTART c) as [s|]; [destruct (DTEND c) as [e|]|]; simpl.
  - destruct (is_date s); simpl.
    + destruct (dt_sub e s) as [span|ex]; simpl; [|discriminate].
      destruct (RECURRENCE_ID c); intros H; injection H as <-; reflexivity.
    + destruct (RECURRENCE_ID c); intros H; injection H as <-; reflexivity.
  - destruct (RECURRENCE_ID c); intros H; injection H as <-; reflexivity.
  - destruct (RECURRENCE_ID c); intros H; injection H as <-; reflexivity.
Qed.

(** C8 (amended): in Pass 1 a VEVENT whose summary or description contains
    "cancelled" or "canceled", in any letter case, and whose verdict is
    computed without an exception, gets a true verdict; its key joins the
    cancelled set and neither the masters nor the overrides change. *)
Theorem spelled_out_cancellation (st : Buckets) (c : Component) (v : bool) :
  mentions_cancelled (Text.text_or_empty (SUMMARY c))
                     (Text.text_or_empty (DESCRIPTION c)) = true ->
  cancellation_verdict c = Ok v ->
  v = true /\
  classify st c
  = Ok (mkBuckets (master_events st) (overrides st)
                  (set_add (component_key c) (cancelled_keys st))) /\
  key_in (component_key c) (set_add (component_key c) (cancelled_keys st)) = true.
Proof.
  intros Hm Hv. pose proof (keyword_verdict c v Hm Hv) as ->.
  split; [reflexivity|]. split; [|apply key_in_set_add].
  unfold classify. rewrite Hv. reflexivity.
Qed.

Lemma spelled_out_cancellation_witness :
  mentions_cancelled (Text.text_or_empty (SUMMARY canceled_review))
                     (Text.text_or_empty (DESCRIPTION canceled_review)) = true /\
  cancellation_verdict canceled_review = Ok true /\
  classify (mkBuckets [] [] []) canceled_review
  = Ok (mkBuckets [] [] [component_key canceled_review]).
Proof.
  split; [reflexivity|]. split; [reflexivity|].
  apply (spelled_out_cancellation (mkBuckets [] [] []) canceled_review true);
    reflexivity.
Defined.

(** C8 as stated fails: "Cancel gym membership" contains "cancel", yet the
    verdict is false and the component is bucketed as a master. *)
Lemma cancel_substring_counterexample :
  Text.contains "cancel" (Text.lower (Text.text_or_empty (SUMMARY cancel_membership)))
  = true /\
  cancellation_verdict cancel_membership = Ok false /\
  classify (mkBuckets [] [] []) cancel_membership
  = Ok (mkBuckets [cancel_membership] [] []).
Proof. repeat split. Qed.

(** *** Pass 2 *)

Section Window.

Variable rule : Type.
Variable rrulestr : string -> Z -> result rule.
Variable between : rule -> Z -> Z -> result (list Z).
Variable convert_until : string -> tzinfo -> string.
Variable timezone : tzinfo.
Variable now : Z.

Hypothesis between_inclusive : forall r after before occs x,
  between r after before = Ok occs -> In x occs -> after <= x <= before.

Lemma caught_between r after before x :
  In x (caught (between r after before)) -> after <= x <= before.
Proof.
  destruct (between r after before) as [occs|e] eqn:Hb; simpl; [|tauto].
  intros Hin. eapply between_inclusive; eauto.
Qed.

Lemma window_start_wall :
  wall_of (window_start timezone now)
  = (now + utcoffset timezone) / us_per_day * us_per_day.
Proof. unfold window_start, floor_day, arrow_get_in, arrow_naive; simpl. lia. Qed.

(** Every occurrence handed to the instance loop reads inside the window. *)
Lemma window_end_wall :
  wall_of (window_end timezone now) = wall_of (window_start timezone now) + 2 * us_per_day.
Proof. unfold window_end, window_start, arrow_datetime; simpl. lia. Qed.

Lemma window_naive (x : dt) :
  (exists u z, x = Aware u z) ->
  arrow_naive (arrow_to (arrow_get x) timezone)
  = wall_of x - utcoffset (match x with Aware _ z => z | _ => UTC end) + utcoffset timezone.
Proof. intros (u & z & ->). unfold arrow_naive; simpl. lia. Qed.

Lemma us_per_day_pos : 0 < us_per_day.
Proof. reflexivity. Qed.

(** Every occurrence handed to the instance loop reads inside the window. *)
Lemma occurrences_in_window (r : rule) (start occ : dt) :
  In occ (occurrences_of rule between timezone now r start) ->
  in_window timezone now start (to_local timezone occ).
Proof.
  pose proof us_per_day_pos as Hpos.
  unfold in_window, occurrences_of.
  destruct start as [o|w|u z]; intros Hin;
    apply in_map_iff in Hin; destruct Hin as (x & <- & Hx);
    apply caught_between in Hx; revert Hx.
  - rewrite window_end_wall, window_start_wall.
    set (W := (now + utcoffset timezone) / us_per_day).
    replace (W * us_per_day + 2 * us_per_day) with ((W + 2) * us_per_day) by lia.
    rewrite !Z.div_mul by lia. intros [L1 L2].
    apply (Z.div_le_mono _ _ us_per_day Hpos) in L1, L2.
    rewrite Z.div_mul in L1, L2 by lia.
    unfold frame_reading, to_local, arrow_to, arrow_get; simpl. nia.
  - rewrite window_end_wall. unfold frame_reading, to_local; simpl. lia.
  - unfold window_end, window_start, arrow_datetime, frame_reading, to_local,
      astimezone, arrow_naive, arrow_get_in, arrow_to, arrow_get; simpl. lia.
Qed.

(** For a series with an aware start the frame of the rule is the local wall
    clock, which is where the window is measured. *)
Lemma aware_frame_is_local (u : Z) (z : tzinfo) (x : dt) :
  in_window timezone now (Aware u z) (to_local timezone x) ->
  starts_in_window timezone now (to_local timezone x).
Proof. unfold in_window, starts_in_window, frame_reading. auto. Qed.

Lemma aware_master_window (st : Buckets) (master : Component) (u : Z) (z : tzinfo)
  (e : Event) :
  DTSTART master = Some (Aware u z) ->
  In e (expand_master rule rrulestr between convert_until timezone now st master) ->
  is_recurring e = true ->
  from_moved_override timezone st master e \/
  starts_in_window timezone now (begin_local e).
Proof.
  intros Hstart. unfold expand_master.
  destruct (key_in _ _); [intros []|].
  destruct (RRULE master) as [text|]; destruct (DTSTART master) as [start|];
    simpl; try tauto; try discriminate Hstart.
  - destruct (rule_of _ _ _ _ _ _) as [r|ex]; [|intros []].
    intros Hin _. apply in_flat_map in Hin. destruct Hin as (occ & Hocc & He).
    apply occurrences_in_window in Hocc. injection Hstart as ->.
    apply aware_frame_is_local in Hocc.
    revert He. unfold instance_of.
    destruct (existsb _ _ || key_in _ _); [intros []|].
    destruct (dict_get _ (overrides st)) as [comp|] eqn:Hget.
    + destruct (DTSTART comp) as [d|] eqn:Hd; intros [<-|[]]; simpl.
      * left. exists occ, d, comp. auto.
      * right. exact Hocc.
    + intros [<-|[]]. right. exact Hocc.
  - intros [<-|[]]. simpl. discriminate.
Qed.

(** C9 (amended): every instance emitted by recurrence expansion comes out of
    the expansion of a master, and when that master's start is timezone-aware
    the instance either takes its start from a RECURRENCE-ID override that
    carries its own DTSTART, or starts inside
    [[floor(now, 1 day), floor(now, 1 day) + 2 days]] on the local wall
    clock, both bounds included.  The recurrence library is any [between]
    that returns occurrences between its two bounds. *)
Theorem generated_instances_in_window (components : list Component) (e : Event) :
  In e (parse_events rule rrulestr between convert_until timezone now components) ->
  is_recurring e = true ->
  exists st : Buckets,
    pass1 components (mkBuckets [] [] []) = Ok st /\
    (exists master : Component,
       In master (master_events st) /\
       In e (expand_master rule rrulestr between convert_until timezone now
                           st master)) /\
    forall (master : Component) (u : Z) (z : tzinfo),
      In master (master_events st) ->
      In e (expand_master rule rrulestr between convert_until timezone now
                          st master) ->
      DTSTART master = Some (Aware u z) ->
      from_moved_override timezone st master e \/
      starts_in_window timezone now (begin_local e).
Proof.
  unfold parse_events.
  destruct (pass1 components _) as [st|ex]; [|intros []].
  intros Hin Hrec. apply in_flat_map in Hin. destruct Hin as (master & Hm & He).
  exists st. split; [reflexivity|]. split; [exists master; auto|].
  intros master' u z _ He' Hstart.
  now apply aware_master_window with (u := u) (z := z).
Qed.

End Window.

Lemma simple_between_inclusive (r : simple_rule) (after before : Z)
  (occs : list Z) (x : Z) :
  simple_between r after before = Ok occs -> In x occs -> after <= x <= before.
Proof.
  unfold simple_between. intros H Hin. injection H as <-.
  apply filter_In in Hin. destruct Hin as [_ Hin]. lia.
Qed.

Lemma generated_instances_witness :
  In second_standup (sample_parse [daily_standup; moved_standup]) /\
  is_recurring second_standup = true /\
  exists st : Buckets,
    pass1 [daily_standup; moved_standup] (mkBuckets [] [] []) = Ok st /\
    (exists master : Component,
       In master (master_events st) /\
       In second_standup
          (expand_master simple_rule simple_rrulestr simple_between keep_rule_text
                         UTC sample_now st master)) /\
    forall (master : Component) (u : Z) (z : tzinfo),
      In master (master_events st) ->
      In second_standup
         (expand_master simple_rule simple_rrulestr simple_between keep_rule_text
                        UTC sample_now st master) ->
      DTSTART master = Some (Aware u z) ->
      from_moved_override UTC st master second_standup \/
      starts_in_window UTC sample_now (begin_local second_standup).
Proof.
  assert (In second_standup (sample_parse [daily_standup; moved_standup])) as Hin.
  { vm_compute. right. left. reflexivity. }
  split; [exact Hin|]. split; [reflexivity|].
  apply (generated_instances_in_window simple_rule simple_rrulestr simple_between
           keep_rule_text UTC sample_now simple_between_inclusive
           [daily_standup; moved_standup] second_standup Hin).
  reflexivity.
Defined.

(** An all-day occurrence is emitted as midnight UTC of its date: five hours
    behind UTC the occurrence of the window's first day is read locally as
    19:00 of the day before, although its date lies in the window. *)
Lemma all_day_local_reading :
  exists e : Event,
    In e (parse_events simple_rule simple_rrulestr simple_between keep_rule_text
                       five_behind sample_now [daily_birthday]) /\
    is_recurring e = true /\
    in_window five_behind sample_now (Date 19990) (begin_local e) /\
    ~ starts_in_window five_behind sample_now (begin_local e).
Proof.
  exists (mkEvent "bday" "Birthday" "" ""
            (mkArrow (20000 * us_per_day) five_behind)
            (mkArrow (20000 * us_per_day) five_behind) true None true).
  split; [vm_compute; left; reflexivity|]. split; [reflexivity|]. split.
  - vm_compute. split; discriminate.
  - vm_compute. intros [H _]. apply H. reflexivity.
Qed.

(** C9 as stated fails: the override moves the occurrence of day 20000 to
    day 20010, and the instance is emitted with that start, eight days past
    the end of the window. *)
Lemma moved_override_counterexample :
  exists e : Event,
    In e (sample_parse [daily_standup; moved_standup]) /\
    is_recurring e = true /\
    ~ starts_in_window UTC sample_now (begin_local e).
Proof.
  exists (mkEvent "standup" "Standup (moved)" "" ""
            (mkArrow (20010 * us_per_day + 9 * us_per_hour) UTC)
            (mkArrow (20010 * us_per_day + 9 * us_per_hour) UTC) false None true).
  split; [vm_compute; left; reflexivity|]. split; [reflexivity|].
  unfold starts_in_window. vm_compute. intros [_ H]. apply H. reflexivity.
Qed.

End RecurrenceFacts.

(** ** Sorting *)

Module SortFacts.

Section StableSort.

Context {A : Type}.
Variable ltb : A -> A -> bool.

Local Abbreviation le := (sorted_le ltb).

Lemma insert_by_perm (x : A) (l : list A) : Permutation (insert_by ltb x l) (x :: l).
Proof.
  induction l as [|y l IH]; simpl; [reflexivity|].
  destruct (ltb y x); [|reflexivity].
  rewrite IH. apply perm_swap.
Qed.

Lemma py_sorted_perm (l : list A) : Permutation (py_sorted ltb l) l.
Proof.
  induction l as [|x l IH]; simpl; [reflexivity|].
  rewrite insert_by_perm. now apply perm_skip.
Qed.

Lemma py_sorted_In (l : list A) (x : A) : In x (py_sorted ltb l) <-> In x l.
Proof.
  split; apply Permutation_in; [|symmetry]; apply py_sorted_perm.
Qed.

Lemma py_sorted_Forall (P : A -> Prop) (l : list A) :
  Forall P l -> Forall P (py_sorted ltb l).
Proof.
  rewrite !Forall_forall. intros H x Hx. apply H. now apply py_sorted_In.
Qed.

(** A list already in order is left as it is. *)
Lemma py_sorted_fixed (l : list A) : Sorted le l -> py_sorted ltb l = l.
Proof.
  induction 1 as [|x l Hs IH Hd]; simpl; [reflexivity|].
  rewrite IH. destruct Hd as [|y l' Hxy]; simpl; [reflexivity|].
  unfold sorted_le in Hxy. now rewrite Hxy.
Qed.

Hypothesis ltb_asym : forall x y, ltb x y = true -> ltb y x = false.
Hypothesis le_trans : forall x y z, le x y -> le y z -> le x z.

Lemma insert_by_sorted (x : A) (l : list A) :
  StronglySorted le l -> StronglySorted le (insert_by ltb x l).
Proof.
  induction 1 as [|y l Hs IH Hall]; simpl.
  - constructor; constructor.
  - destruct (ltb y x) eqn:Hyx.
    + constructor; [exact IH|].
      apply Forall_forall. intros z Hz.
      apply (Permutation_in _ (insert_by_perm x l)) in Hz. destruct Hz as [<-|Hz].
      * unfold sorted_le. now apply ltb_asym.
      * rewrite Forall_forall in Hall. now apply Hall.
    + constructor; [now constructor|].
      constructor; [exact Hyx|].
      eapply Forall_impl; [|exact Hall]. intros z Hz. now apply le_trans with y.
Qed.

Lemma py_sorted_sorted (l : list A) : StronglySorted le (py_sorted ltb l).
Proof.
  induction l as [|x l IH]; simpl; [constructor|]. now apply insert_by_sorted.
Qed.

Lemma py_sorted_idempotent (l : list A) :
  py_sorted ltb (py_sorted ltb l) = py_sorted ltb l.
Proof. apply py_sorted_fixed, StronglySorted_Sorted, py_sorted_sorted. Qed.

End StableSort.

(** The order of days. *)
Lemma days_sorted (l : list Z) : NoDup l -> StronglySorted Z.lt (py_sorted Z.ltb l).
Proof.
  intros Hnd.
  assert (StronglySorted (sorted_le Z.ltb) (py_sorted Z.ltb l)) as Hs.
  { apply py_sorted_sorted; unfold sorted_le; intros; lia. }
  assert (NoDup (py_sorted Z.ltb l)) as Hnd'.
  { eapply Permutation_NoDup; [symmetry; apply py_sorted_perm | exact Hnd]. }
  induction Hs as [|x l' Hs IH Hall]; constructor.
  - apply IH. now inversion Hnd'.
  - inversion Hnd' as [|? ? Hnotin _]; subst.
    rewrite Forall_forall in *. intros y Hy. specialize (Hall y Hy). unfold sorted_le in Hall.
    assert (x <> y) by (intros ->; contradiction). lia.
Qed.

(** Strictly ascending lists with the same members are the same list. *)
Lemma strictly_sorted_ext (l1 : list Z) : forall l2,
  StronglySorted Z.lt l1 -> StronglySorted Z.lt l2 ->
  (forall d, In d l1 <-> In d l2) -> l1 = l2.
Proof.
  induction l1 as [|x l1 IH]; intros l2 H1 H2 Hmem.
  - destruct l2 as [|y l2]; [reflexivity|]. destruct (proj2 (Hmem y)); now left.
  - destruct l2 as [|y l2]; [destruct (proj1 (Hmem x)); now left|].
    apply StronglySorted_inv in H1, H2. destruct H1 as [S1 F1], H2 as [S2 F2].
    rewrite Forall_forall in F1, F2.
    assert (x = y) as ->.
    { destruct (proj1 (Hmem x) (or_introl eq_refl)) as [->|Hx]; [reflexivity|].
      destruct (proj2 (Hmem y) (or_introl eq_refl)) as [->|Hy]; [reflexivity|].
      specialize (F1 y Hy). specialize (F2 x Hx). lia. }
    f_equal. apply IH; auto. intros d. split; intros Hd.
    + destruct (proj1 (Hmem d) (or_intror Hd)) as [<-|]; [|assumption].
      specialize (F1 _ Hd). lia.
    + destruct (proj2 (Hmem d) (or_intror Hd)) as [<-|]; [|assumption].
      specialize (F2 _ Hd). lia.
Qed.

End SortFacts.

Module StringOrder.

Lemma ascii_compare_refl (c : ascii) : Ascii.compare c c = Eq.
Proof. unfold Ascii.compare. apply N.compare_refl. Qed.

Lemma compare_lt_trans (s1 : string) : forall s2 s3,
  String.compare s1 s2 = Lt -> String.compare s2 s3 = Lt -> String.compare s1 s3 = Lt.
Proof.
  induction s1 as [|c1 s1 IH]; intros [|c2 s2] [|c3 s3]; simpl; try discriminate; auto.
  destruct (Ascii.compare c1 c2) eqn:H12; try discriminate;
    destruct (Ascii.compare c2 c3) eqn:H23; try discriminate.
  - apply Ascii.compare_eq_iff in H12, H23. subst. rewrite ascii_compare_refl. apply IH.
  - apply Ascii.compare_eq_iff in H12. subst. now rewrite H23.
  - apply Ascii.compare_eq_iff in H23. subst. now rewrite H12.
  - unfold Ascii.compare in *. rewrite N.compare_lt_iff in H12, H23.
    assert (N_of_ascii c1 < N_of_ascii c3)%N as H13 by lia.
    apply N.compare_lt_iff in H13. now rewrite H13.
Qed.

Lemma string_ltb_asym (a b : string) : String.ltb a b = true -> String.ltb b a = false.
Proof.
  unfold String.ltb. rewrite (String.compare_antisym b a).
  destruct (String.compare a b); simpl; auto; discriminate.
Qed.

Lemma string_le_trans (a b c : string) :
  String.ltb b a = false -> String.ltb c b = false -> String.ltb c a = false.
Proof.
  unfold String.ltb. intros Hab Hbc.
  destruct (String.compare c a) eqn:Hca; auto.
  destruct (String.compare b a) eqn:Hba; try discriminate.
  - apply String.compare_eq_iff in Hba. subst. now rewrite Hca in Hbc.
  - destruct (String.compare c b) eqn:Hcb; try discriminate.
    + apply String.compare_eq_iff in Hcb. subst. rewrite Hca in Hba. discriminate.
    + rewrite String.compare_antisym in Hba, Hcb.
      destruct (String.compare a b) eqn:Hab'; try discriminate.
      destruct (String.compare b c) eqn:Hbc'; try discriminate.
      pose proof (compare_lt_trans _ _ _ Hab' Hbc') as Hac.
      rewrite String.compare_antisym, Hac in Hca. discriminate.
Qed.

End StringOrder.

(** ** Event validation *)

Module ValidatorFacts.
Import Time Events Validator SortFacts.

(** *** The sort key order *)

Lemma sort_key_asym (x y : Event) : sort_key_ltb x y = true -> sort_key_ltb y x = false.
Proof.
  unfold sort_key_ltb, arrow_eqb, arrow_ltb.
  rewrite (Z.eqb_sym (instant (begin_local y))).
  destruct (instant (begin_local x) =? instant (begin_local y)) eqn:He.
  - apply StringOrder.string_ltb_asym.
  - lia.
Qed.

Lemma sort_key_le_trans (x y z : Event) :
  sorted_le sort_key_ltb x y -> sorted_le sort_key_ltb y z -> sorted_le sort_key_ltb x z.
Proof.
  unfold sorted_le, sort_key_ltb, arrow_eqb, arrow_ltb.
  destruct (instant (begin_local y) =? instant (begin_local x)) eqn:E1;
  destruct (instant (begin_local z) =? instant (begin_local y)) eqn:E2;
  destruct (instant (begin_local z) =? instant (begin_local x)) eqn:E3;
    try lia.
  apply StringOrder.string_le_trans.
Qed.

(** *** Keys *)

Lemma arrow_str_eqb_eq (a b : Arrow) : arrow_str_eqb a b = true <-> a = b.
Proof.
  unfold arrow_str_eqb. destruct a as [ia [oa]], b as [ib [ob]]; simpl.
  rewrite andb_true_iff, !Z.eqb_eq. split.
  - intros [-> ->]. reflexivity.
  - intros H. injection H as -> ->. auto.
Qed.

Lemma key_eqb_eq (k1 k2 : Key) : key_eqb k1 k2 = true <-> k1 = k2.
Proof.
  destruct k1 as [[[s1 b1] e1] a1], k2 as [[[s2 b2] e2] a2]. unfold key_eqb.
  rewrite !andb_true_iff, String.eqb_eq, !arrow_str_eqb_eq, Bool.eqb_true_iff.
  split.
  - intros [[[-> ->] ->] ->]. reflexivity.
  - intros H. injection H as -> -> -> ->. auto.
Qed.

Lemma key_in_In (k : Key) (seen : list Key) : key_in k seen = true <-> In k seen.
Proof.
  unfold key_in. rewrite existsb_exists. split.
  - intros (k' & Hin & He). apply key_eqb_eq in He. now subst.
  - intros Hin. exists k. split; [exact Hin | now apply key_eqb_eq].
Qed.

(** *** The first loop *)

Lemma sweep_kept (events : list Event) : forall seen fixed_events,
  sweep events seen fixed_events = fixed_events ++ kept events seen.
Proof.
  induction events as [|event rest IH]; intros seen fixed_events; simpl.
  - now rewrite app_nil_r.
  - rewrite IH. fold (dropped event).
    destruct (negb (key_in (key_of event) seen) && negb (dropped event)); simpl;
      [rewrite <- app_assoc|]; reflexivity.
Qed.

Lemma seen_grows (event : Event) (seen : list Key) (k : Key) :
  In k seen ->
  In k (if key_in (key_of event) seen then seen else key_of event :: seen).
Proof. destruct (key_in _ _); simpl; auto. Qed.

Lemma kept_fresh (events : list Event) : forall seen e,
  In e (kept events seen) -> ~ In (key_of e) seen /\ dropped e = false.
Proof.
  induction events as [|event rest IH]; intros seen e; simpl; [tauto|].
  destruct (key_in (key_of event) seen) eqn:Hdup; simpl.
  - intros Hin. now apply IH.
  - assert (~ In (key_of event) seen) as Hfresh.
    { intros Hin. apply key_in_In in Hin. congruence. }
    destruct (dropped event) eqn:Hd; simpl.
    + intros Hin. apply IH in Hin. destruct Hin as [Hn Hk]. split; [|exact Hk].
      intros Hs. apply Hn. now right.
    + intros [<-|Hin]; [auto|].
      apply IH in Hin. destruct Hin as [Hn Hk]. split; [|exact Hk].
      intros Hs. apply Hn. now right.
Qed.

Lemma kept_NoDup (events : list Event) : forall seen,
  NoDup (map key_of (kept events seen)).
Proof.
  induction events as [|event rest IH]; intros seen; simpl; [constructor|].
  destruct (key_in (key_of event) seen) eqn:Hdup; simpl; [apply IH|].
  destruct (dropped event); simpl; [apply IH|].
  constructor; [|apply IH].
  intros Hin. apply in_map_iff in Hin. destruct Hin as (e & Hk & He).
  apply kept_fresh in He. destruct He as [Hn _]. apply Hn. rewrite Hk. now left.
Qed.

(** On a list with distinct keys, none of them seen, none dropped, the loop
    keeps everything. *)
Lemma kept_all (events : list Event) : forall seen,
  NoDup (map key_of events) ->
  (forall e, In e events -> ~ In (key_of e) seen /\ dropped e = false) ->
  kept events seen = events.
Proof.
  induction events as [|event rest IH]; intros seen Hnd Hok; simpl; [reflexivity|].
  destruct (Hok event (or_introl eq_refl)) as [Hfresh Hd].
  assert (key_in (key_of event) seen = false) as ->.
  { destruct (key_in (key_of event) seen) eqn:H; [|reflexivity].
    apply key_in_In in H. contradiction. }
  rewrite Hd. simpl. f_equal. inversion Hnd as [|? ? Hnotin Hnd']; subst.
  apply IH; [exact Hnd'|].
  intros e He. destruct (Hok e (or_intror He)) as [Hn Hk]. split; [|exact Hk].
  intros [Heq|Hs]; [|contradiction].
  apply Hnotin. rewrite Heq. now apply in_map.
Qed.


(** *** Grouping by day *)

Lemma lookup_setdefault (day d : Z) (e : Event) (dict : list (Z * list Event)) :
  lookup_day d (setdefault_append day e dict)
  = if day =? d then lookup_day d dict ++ [e] else lookup_day d dict.
Proof.
  induction dict as [|[k v] rest IH]; simpl.
  - destruct (day =? d); reflexivity.
  - destruct (k =? day) eqn:Hk; simpl.
    + apply Z.eqb_eq in Hk. subst k. destruct (day =? d); reflexivity.
    + destruct (k =? d) eqn:Hkd; [|exact IH].
      apply Z.eqb_eq in Hkd. subst k. rewrite Z.eqb_sym, Hk. reflexivity.
Qed.

Lemma keys_setdefault (day : Z) (e : Event) (dict : list (Z * list Event)) :
  map fst (setdefault_append day e dict)
  = if existsb (fun k => k =? day) (map fst dict)
    then map fst dict else map fst dict ++ [day].
Proof.
  induction dict as [|[k v] rest IH]; simpl; [reflexivity|].
  destruct (k =? day); simpl; [reflexivity|].
  rewrite IH. destruct (existsb _ _); reflexivity.
Qed.

Lemma lookup_fold (events : list Event) : forall dict d,
  lookup_day d
    (fold_left (fun dict e => setdefault_append (day_of e) e dict) events dict)
  = lookup_day d dict ++ filter (on_day d) events.
Proof.
  induction events as [|e rest IH]; intros dict d; simpl.
  - now rewrite app_nil_r.
  - rewrite IH, lookup_setdefault. unfold on_day.
    destruct (day_of e =? d); [rewrite <- app_assoc|]; reflexivity.
Qed.

Lemma keys_fold (events : list Event) : forall dict,
  NoDup (map fst dict) ->
  let dict' := fold_left (fun dict e => setdefault_append (day_of e) e dict) events dict in
  NoDup (map fst dict') /\
  (forall d, In d (map fst dict') <->
             In d (map fst dict) \/ exists e, In e events /\ day_of e = d).
Proof.
  induction events as [|e rest IH]; intros dict Hnd; simpl.
  - split; [exact Hnd|]. intros d. split; [auto|]. intros [H|(e & [] & _)]. exact H.
  - assert (NoDup (map fst (setdefault_append (day_of e) e dict)) /\
            forall d, In d (map fst (setdefault_append (day_of e) e dict)) <->
                      In d (map fst dict) \/ day_of e = d) as [Hnd1 Hmem1].
    { rewrite keys_setdefault.
      destruct (existsb (fun k => k =? day_of e) (map fst dict)) eqn:Hex.
      - split; [exact Hnd|]. intros d. split; [auto|]. intros [H|<-]; [exact H|].
        apply existsb_exists in Hex. destruct Hex as (k & Hk & Heq).
        apply Z.eqb_eq in Heq. now subst.
      - split.
        + apply NoDup_app; [exact Hnd | constructor; [intros [] | constructor] |].
          intros k Hk [Heq|[]].
          assert (existsb (fun k0 => k0 =? day_of e) (map fst dict) = true) as Ht.
          { apply existsb_exists. exists k. split; [exact Hk | apply Z.eqb_eq; auto]. }
          congruence.
        + intros d. rewrite in_app_iff. simpl. tauto. }
    destruct (IH _ Hnd1) as [Hnd2 Hmem2]. split; [exact Hnd2|].
    intros d. rewrite Hmem2, Hmem1. split.
    + intros [[H|H]|(e' & He' & Hd)]; eauto.
    + intros [H|(e' & [<-|He'] & Hd)]; eauto.
Qed.

Lemma lookup_group (fixed_events : list Event) (d : Z) :
  lookup_day d (group_by_day fixed_events) = filter (on_day d) fixed_events.
Proof. unfold group_by_day. now rewrite lookup_fold. Qed.

Lemma validate_events_arrange (events : list Event) :
  validate_events events = arrange (kept events []).
Proof.
  unfold validate_events, arrange, days_of. rewrite sweep_kept. simpl.
  apply flat_map_ext. intros d. now rewrite lookup_group.
Qed.

Lemma days_of_sorted (l : list Event) : StronglySorted Z.lt (days_of l).
Proof.
  apply days_sorted. unfold group_by_day.
  apply (keys_fold l []). constructor.
Qed.

Lemma days_of_In (l : list Event) (d : Z) :
  In d (days_of l) <-> exists e, In e l /\ day_of e = d.
Proof.
  unfold days_of. rewrite py_sorted_In. unfold group_by_day.
  destruct (keys_fold l [] (NoDup_nil _)) as [_ Hmem]. rewrite Hmem. simpl.
  split; [intros [[]|H]; exact H | auto].
Qed.


(** *** Small list facts *)

Lemma filter_all {A} (p : A -> bool) (l : list A) :
  Forall (fun x => p x = true) l -> filter p l = l.
Proof. induction 1 as [|x l Hx _ IH]; simpl; [|rewrite Hx, IH]; reflexivity. Qed.

Lemma filter_none {A} (p : A -> bool) (l : list A) :
  Forall (fun x => p x = false) l -> filter p l = [].
Proof. induction 1 as [|x l Hx _ IH]; simpl; [|rewrite Hx, IH]; reflexivity. Qed.

Lemma filter_twice {A} (p q : A -> bool) (l : list A) :
  filter p (filter q l) = filter (fun x => q x && p x) l.
Proof.
  induction l as [|x l IH]; simpl; [reflexivity|].
  destruct (q x); simpl; [destruct (p x)|]; now rewrite IH.
Qed.

Lemma flat_map_agree {A B} (f g : A -> list B) (l : list A) :
  (forall x, In x l -> f x = g x) -> flat_map f l = flat_map g l.
Proof.
  induction l as [|x l IH]; intros H; simpl; [reflexivity|].
  rewrite (H x) by now left. f_equal. apply IH. intros; apply H; now right.
Qed.

Lemma filter_split_perm {A} (p : A -> bool) (l : list A) :
  Permutation (filter p l ++ filter (fun x => negb (p x)) l) l.
Proof.
  induction l as [|x l IH]; simpl; [reflexivity|].
  destruct (p x); simpl.
  - now apply perm_skip.
  - rewrite <- Permutation_middle. now apply perm_skip.
Qed.

Lemma flat_map_perm {A B} (f g : A -> list B) (l : list A) :
  (forall x, In x l -> Permutation (f x) (g x)) ->
  Permutation (flat_map f l) (flat_map g l).
Proof.
  induction l as [|x l IH]; intros H; simpl; [reflexivity|].
  apply Permutation_app; [apply H; now left | apply IH; intros; apply H; now right].
Qed.

(** *** One day's block *)

Lemma day_block_perm (g : list Event) : Permutation (day_block g) g.
Proof.
  unfold day_block. rewrite !py_sorted_perm. apply filter_split_perm.
Qed.

Lemma day_block_In (g : list Event) (e : Event) : In e (day_block g) <-> In e g.
Proof. split; apply Permutation_in; [|symmetry]; apply day_block_perm. Qed.

Lemma all_day_half (g : list Event) :
  Forall (fun e => all_day e = true) (py_sorted sort_key_ltb (filter all_day g)).
Proof.
  apply py_sorted_Forall, Forall_forall. intros e He.
  now apply filter_In in He.
Qed.

Lemma timed_half (g : list Event) :
  Forall (fun e => all_day e = false)
         (py_sorted sort_key_ltb (filter (fun e => negb (all_day e)) g)).
Proof.
  apply py_sorted_Forall, Forall_forall. intros e He.
  apply filter_In in He. now apply negb_true_iff.
Qed.

Lemma day_block_idempotent (g : list Event) : day_block (day_block g) = day_block g.
Proof.
  unfold day_block at 1 3.
  set (a := py_sorted sort_key_ltb (filter all_day g)).
  set (t := py_sorted sort_key_ltb (filter (fun e => negb (all_day e)) g)).
  unfold day_block. fold a. fold t. rewrite !filter_app.
  pose proof (all_day_half g) as Ha. pose proof (timed_half g) as Ht.
  fold a in Ha. fold t in Ht.
  rewrite (filter_all all_day a) by exact Ha.
  rewrite (filter_none all_day t) by exact Ht.
  rewrite (filter_none (fun e => negb (all_day e)) a).
  2:{ eapply Forall_impl; [|exact Ha]. simpl. intros e ->. reflexivity. }
  rewrite (filter_all (fun e => negb (all_day e)) t).
  2:{ eapply Forall_impl; [|exact Ht]. simpl. intros e ->. reflexivity. }
  rewrite app_nil_r. simpl. unfold a, t.
  now rewrite !(py_sorted_idempotent sort_key_ltb sort_key_asym sort_key_le_trans).
Qed.

(** *** The arrangement *)

Lemma on_day_block (d d' : Z) (l : list Event) :
  filter (on_day d) (day_block (filter (on_day d') l))
  = if d' =? d then day_block (filter (on_day d') l) else [].
Proof.
  assert (Forall (fun e => day_of e = d') (day_block (filter (on_day d') l))) as H.
  { apply Forall_forall. intros e He. apply day_block_In, filter_In in He.
    destruct He as [_ He]. now apply Z.eqb_eq in He. }
  destruct (d' =? d) eqn:Hd.
  - apply Z.eqb_eq in Hd. subst d'. apply filter_all.
    eapply Forall_impl; [|exact H]. intros e He. now apply Z.eqb_eq.
  - apply filter_none. eapply Forall_impl; [|exact H]. intros e He.
    unfold on_day. rewrite He. exact Hd.
Qed.

Lemma on_day_flat_map (d : Z) (l : list Event) (ds : list Z) :
  NoDup ds ->
  filter (on_day d) (flat_map (fun d' => day_block (filter (on_day d') l)) ds)
  = if existsb (fun d' => d' =? d) ds then day_block (filter (on_day d) l) else [].
Proof.
  induction 1 as [|d' ds Hnotin Hnd IH]; simpl; [reflexivity|].
  rewrite filter_app, on_day_block, IH.
  destruct (d' =? d) eqn:Hd; simpl; [|reflexivity].
  apply Z.eqb_eq in Hd. subst d'.
  destruct (existsb (fun d' => d' =? d) ds) eqn:Hex.
  - apply existsb_exists in Hex. destruct Hex as (x & Hx & He).
    apply Z.eqb_eq in He. subst x. contradiction.
  - apply app_nil_r.
Qed.

Lemma strictly_sorted_NoDup (l : list Z) : StronglySorted Z.lt l -> NoDup l.
Proof.
  induction 1 as [|x l _ IH Hall]; constructor; [|exact IH].
  intros Hin. rewrite Forall_forall in Hall. specialize (Hall x Hin). lia.
Qed.

Lemma days_partition (ds : list Z) : forall l : list Event,
  NoDup ds -> (forall e, In e l -> In (day_of e) ds) ->
  Permutation (flat_map (fun d => filter (on_day d) l) ds) l.
Proof.
  induction ds as [|d ds IH]; intros l Hnd Hcov; simpl.
  - destruct l as [|e l]; [reflexivity|]. destruct (Hcov e). now left.
  - inversion Hnd as [|? ? Hnotin Hnd']; subst.
    etransitivity; [|apply (filter_split_perm (on_day d) l)].
    apply Permutation_app_head.
    etransitivity; [|apply (IH (filter (fun e => negb (on_day d e)) l) Hnd')].
    + apply Permutation_refl'. apply flat_map_agree. intros d' Hd'.
      rewrite filter_twice. apply filter_ext. intros e. unfold on_day.
      destruct (day_of e =? d') eqn:H1; destruct (day_of e =? d) eqn:H2;
        try reflexivity.
      apply Z.eqb_eq in H1, H2. subst. contradiction.
    + intros e He. apply filter_In in He. destruct He as [He Hne].
      destruct (Hcov e He) as [Heq|Hin]; [|exact Hin].
      unfold on_day in Hne. rewrite Heq, Z.eqb_refl in Hne. discriminate.
Qed.

Lemma arrange_perm (l : list Event) : Permutation (arrange l) l.
Proof.
  unfold arrange.
  rewrite (flat_map_perm _ (fun d => filter (on_day d) l)).
  - apply days_partition.
    + apply strictly_sorted_NoDup, days_of_sorted.
    + intros e He. apply days_of_In. eauto.
  - intros d _. apply day_block_perm.
Qed.

Lemma arrange_In (l : list Event) (e : Event) : In e (arrange l) <-> In e l.
Proof. split; apply Permutation_in; [|symmetry]; apply arrange_perm. Qed.

Lemma days_of_arrange (l : list Event) : days_of (arrange l) = days_of l.
Proof.
  apply strictly_sorted_ext; try apply days_of_sorted.
  intros d. rewrite !days_of_In. split; intros (e & He & Hd); exists e.
  - split; [exact (proj1 (arrange_In l e) He) | exact Hd].
  - split; [exact (proj2 (arrange_In l e) He) | exact Hd].
Qed.

Lemma arrange_idempotent (l : list Event) : arrange (arrange l) = arrange l.
Proof.
  unfold arrange at 1. rewrite days_of_arrange. unfold arrange at 2.
  apply flat_map_agree. intros d Hd. unfold arrange.
  rewrite on_day_flat_map by apply strictly_sorted_NoDup, days_of_sorted.
  replace (existsb (fun d' => d' =? d) (days_of l)) with true.
  - apply day_block_idempotent.
  - symmetry. apply existsb_exists. exists d. split; [exact Hd | apply Z.eqb_refl].
Qed.

Lemma kept_arrange (events : list Event) (seen : list Key) :
  kept (arrange (kept events seen)) [] = arrange (kept events seen).
Proof.
  apply kept_all.
  - eapply Permutation_NoDup; [|apply (kept_NoDup events seen)].
    apply Permutation_map. symmetry. apply arrange_perm.
  - intros e He. apply arrange_In, kept_fresh in He. split; [intros []|tauto].
Qed.

(** C5: the validator applied to its own output returns that output: nothing
    more is removed and the order does not change. *)
Theorem validate_events_idempotent (events : list Event) :
  validate_events (validate_events events) = validate_events events.
Proof.
  rewrite !validate_events_arrange, kept_arrange. apply arrange_idempotent.
Qed.


Lemma Forall2_map_right {A B} (R : A -> B -> Prop) (f : A -> B) (l : list A) :
  (forall x, In x l -> R x (f x)) -> Forall2 R l (map f l).
Proof.
  induction l as [|x l IH]; intros H; simpl; constructor.
  - apply H. now left.
  - apply IH. intros; apply H; now right.
Qed.

Lemma day_block_shape (d : Z) (l : list Event) :
  In d (days_of l) -> block_of_day d (day_block (filter (on_day d) l)).
Proof.
  intros Hd. set (g := filter (on_day d) l).
  assert (forall e, In e g -> day_of e = d) as Hday.
  { intros e He. apply filter_In in He. destruct He as [_ He]. now apply Z.eqb_eq. }
  exists (py_sorted sort_key_ltb (filter all_day g)),
         (py_sorted sort_key_ltb (filter (fun e => negb (all_day e)) g)).
  split; [reflexivity|]. split; [|split; [|split; [|split]]].
  - apply days_of_In in Hd. destruct Hd as (e & He & Hde).
    assert (In e (day_block g)) as Hin.
    { apply day_block_In, filter_In. split; [exact He | now apply Z.eqb_eq]. }
    intros Hnil. rewrite Hnil in Hin. destruct Hin.
  - apply py_sorted_Forall, Forall_forall. intros e He.
    apply filter_In in He. destruct He as [He Ha]. auto.
  - apply py_sorted_Forall, Forall_forall. intros e He.
    apply filter_In in He. destruct He as [He Ha]. apply negb_true_iff in Ha. auto.
  - apply (py_sorted_sorted sort_key_ltb sort_key_asym sort_key_le_trans).
  - apply (py_sorted_sorted sort_key_ltb sort_key_asym sort_key_le_trans).
Qed.

(** C6: the validator's output is a concatenation of non-empty blocks, one per
    start day, the days strictly ascending; in each block every all-day event
    precedes every timed event and both halves are ascending for
    [(begin_local, summary)]. *)
Theorem validate_events_canonical (events : list Event) :
  canonical_order (validate_events events).
Proof.
  rewrite validate_events_arrange. set (l := kept events []).
  exists (days_of l), (map (fun d => day_block (filter (on_day d) l)) (days_of l)).
  split; [apply flat_map_concat_map|]. split; [apply days_of_sorted|].
  apply Forall2_map_right. intros d Hd. now apply day_block_shape.
Qed.

End ValidatorFacts.

(** ** The balance check *)

Module BalanceCheckFacts.
Import Distribution DistributionFacts BalanceCheck.

Lemma fold_min_bounds (l : list Z) : forall x lo hi,
  lo <= x <= hi -> Forall (fun y => lo <= y <= hi) l ->
  lo <= fold_left Z.min l x <= hi.
Proof.
  induction l as [|y l IH]; intros x lo hi Hx Hl; simpl; [exact Hx|].
  inversion Hl; subst. apply IH; [lia | assumption].
Qed.

Lemma fold_max_bounds (l : list Z) : forall x lo hi,
  lo <= x <= hi -> Forall (fun y => lo <= y <= hi) l ->
  lo <= fold_left Z.max l x <= hi.
Proof.
  induction l as [|y l IH]; intros x lo hi Hx Hl; simpl; [exact Hx|].
  inversion Hl; subst. apply IH; [lia | assumption].
Qed.

Lemma py_min_max_bounds (l : list Z) (lo hi : Z) :
  l <> [] -> Forall (fun y => lo <= y <= hi) l ->
  lo <= py_min l <= hi /\ lo <= py_max l <= hi.
Proof.
  destruct l as [|x l]; [congruence|]. intros _ H. inversion H; subst.
  split; [now apply fold_min_bounds | now apply fold_max_bounds].
Qed.

Section Facts.
Context {Event Task : Type}.
Local Abbreviation PageT := (Page Event Task).

Lemma zsum_event_lengths (pages : list PageT) :
  zsum (map (fun page => len (events page)) pages) = len (all_events pages).
Proof.
  induction pages as [|p pages IH]; [reflexivity|].
  change (all_events (p :: pages)) with (events p ++ all_events pages).
  rewrite len_app. simpl. rewrite IH. reflexivity.
Qed.

Lemma zsum_task_lengths (pages : list PageT) :
  zsum (map (fun page => len (tasks page)) pages) = len (all_tasks pages).
Proof.
  induction pages as [|p pages IH]; [reflexivity|].
  change (all_tasks (p :: pages)) with (tasks p ++ all_tasks pages).
  rewrite len_app. simpl. rewrite IH. reflexivity.
Qed.

Lemma no_page_over (pages : list PageT) (max_items : Z) :
  existsb (fun page => page_total page >? max_items) pages = false <->
  Forall (fun page => page_total page <= max_items) pages.
Proof.
  induction pages as [|p pages IH]; simpl.
  - split; [constructor | reflexivity].
  - rewrite orb_false_iff, IH. split.
    + intros [H1 H2]. constructor; [lia | assumption].
    + intros H. inversion H; subst. split; [lia | assumption].
Qed.

Lemma targets_near (t r n : Z) :
  Forall (fun y => t <= y <= t + 1)
         (map (fun i => if i <? r then t + 1 else t) (py_range n)).
Proof.
  apply Forall_forall. intros y Hy. apply in_map_iff in Hy.
  destruct Hy as (i & <- & _). destruct (i <? r); lia.
Qed.

(** X1: for a positive capacity and at most 1000 items the pages
    [distribute_items_across_pages] returns pass the check of
    [validate_distribution_balance]: counts, capacity and balance. *)
Theorem balance_check_passes (E : list Event) (T : list Task) (max_items : Z) :
  0 < max_items -> len E + len T <= 1000 -> passes_own_check E T max_items.
Proof.
  intros Hm Hle. unfold passes_own_check.
  destruct (Z_le_gt_dec (len E + len T) max_items) as [Hfit|Hbig].
  - exists [mkPage E T]. rewrite small_input_cases by assumption.
    split; [reflexivity|]. unfold validate_distribution_balance.
    cbn [nonempty negb map zsum fold_right events tasks existsb].
    rewrite !Z.add_0_r, !Z.eqb_refl. cbn [negb]. unfold page_total. simpl events. simpl tasks.
    replace (len E + len T >? max_items) with false by (symmetry; lia).
    cbn [orb]. replace (len [mkPage E T] >? 1) with false by reflexivity. reflexivity.
  - destruct (distribute_split E T max_items Hm ltac:(lia) Hle)
      as (pages & H & Hsz & He & Ht & Hc).
    exists pages. split; [exact H|].
    set (total := len E + len T) in *.
    set (p := (total + max_items - 1) / max_items) in *.
    assert (pages <> []) as Hne.
    { intros ->. simpl in He. subst E. simpl in Ht. subst T.
      unfold total, len in Hbig. simpl in Hbig. lia. }
    unfold validate_distribution_balance.
    destruct pages as [|pg pages']; [congruence|]. cbn [nonempty negb].
    set (pages := pg :: pages') in *.
    rewrite zsum_event_lengths, zsum_task_lengths, He, Ht, !Z.eqb_refl. cbn [negb].
    replace (existsb _ pages) with false by (symmetry; now apply no_page_over).
    fold (page_sizes pages). rewrite Hsz.
    destruct (py_min_max_bounds
                (map (fun i => if i <? total mod p then total / p + 1 else total / p)
                     (py_range p)) (total / p) (total / p + 1)) as [Hmin Hmax].
    + rewrite <- Hsz. unfold pages. discriminate.
    + apply targets_near.
    + destruct (_ && _); [|reflexivity].
      replace (_ >=? 7) with (7 <=? py_max (map (fun i => if i <? total mod p then total / p + 1 else total / p) (py_range p))) by lia.
      destruct ((7 <=? _) && (_ <=? 2)) eqn:Hsev.
      * apply andb_true_iff in Hsev. lia.
      * replace (_ - _ >? 3) with false by (symmetry; lia). reflexivity.
Qed.

End Facts.

Lemma balance_check_witness :
  0 < 6 /\ len (sample_events 9) + len sample_tasks <= 1000 /\
  passes_own_check (sample_events 9) sample_tasks 6.
Proof.
  split; [reflexivity|]. split; [vm_compute; discriminate|].
  apply balance_check_passes; [reflexivity | vm_compute; discriminate].
Defined.

End BalanceCheckFacts.

(** ** Fill order *)

Module FillOrderFacts.
Import Distribution DistributionFacts FillOrder.

Section Facts.
Context {Event Task : Type}.
Local Abbreviation PageT := (Page Event Task).

(** The pages the loop appends do not depend on the pages already there. *)
Lemma fill_pages_appends (targets : list Z) :
  forall page_idx n_targets max_items (pages : list PageT) er tr,
  fill_pages page_idx n_targets max_items targets pages er tr
  = let '(produced, er', tr') :=
      fill_pages page_idx n_targets max_items targets [] er tr in
    (pages ++ produced, er', tr').
Proof.
  induction targets as [|t later IH]; intros page_idx n_targets max_items pages er tr.
  - simpl. now rewrite app_nil_r.
  - cbn [fill_pages].
    destruct (fill_page page_idx n_targets max_items t er tr) as [[p er1] tr1].
    rewrite (IH _ _ _ (pages ++ [p])), (IH _ _ _ ([] ++ [p])).
    destruct (fill_pages (page_idx + 1) n_targets max_items later [] er1 tr1)
      as [[produced er'] tr'].
    now rewrite <- app_assoc.
Qed.

(** Without events left, a page gets none. *)
Lemma fill_page_without_events page_idx n_targets max_items target
  (tr : list Task) (p : PageT) er' tr' :
  fill_page page_idx n_targets max_items target [] tr = (p, er', tr') ->
  events p = [] /\ er' = [].
Proof.
  unfold fill_page. cbn [fill].
  destruct (fill tr [] 0 target) as [[tr1 pt] n2].
  destruct (_ && _); [destruct tr1|]; intros H; injection H as <- <- <-; auto.
Qed.

Lemma fill_pages_without_events (targets : list Z) :
  forall page_idx n_targets max_items (tr : list Task) (produced : list PageT) er' tr',
  fill_pages page_idx n_targets max_items targets [] [] tr = (produced, er', tr') ->
  Forall (fun q => events q = []) produced.
Proof.
  induction targets as [|t later IH];
    intros page_idx n_targets max_items tr produced er' tr'; cbn [fill_pages].
  - intros H; injection H as <- _ _. constructor.
  - destruct (fill_page page_idx n_targets max_items t [] tr) as [[p er1] tr1] eqn:Hp.
    apply fill_page_without_events in Hp. destruct Hp as [Hev ->].
    rewrite fill_pages_appends.
    destruct (fill_pages (page_idx + 1) n_targets max_items later [] [] tr1)
      as [[ps er2] tr2] eqn:Hps.
    intros H; injection H as <- _ _. simpl. constructor; [exact Hev|].
    eapply IH. exact Hps.
Qed.

(** A page served in full takes a task only once the events are used up. *)
Lemma fill_page_tasks_after_events page_idx n_targets max_items target
  (er : list Event) (tr : list Task) (p : PageT) er' tr' :
  fill_page page_idx n_targets max_items target er tr = (p, er', tr') ->
  0 <= target <= len er + len tr ->
  tasks p = [] \/ er' = [].
Proof.
  unfold fill_page. rewrite !fill_closed. cbn [app].
  set (n1 := 0 + Z.of_nat (Nat.min (Z.to_nat (target - 0)) (length er))).
  set (n2 := n1 + Z.of_nat (Nat.min (Z.to_nat (target - n1)) (length tr))).
  intros H Hr. unfold len in Hr.
  assert (n2 = target) as Hn2 by (unfold n2, n1; lia).
  rewrite Hn2, Z.ltb_irrefl in H. cbn [andb] in H.
  injection H as <- <- <-. cbn [tasks].
  destruct (Z_lt_le_dec n1 target) as [Hlt|Hge].
  - right. apply skipn_all2. unfold n1 in Hlt. lia.
  - left. replace (Z.to_nat (target - n1)) with 0%nat by lia. reflexivity.
Qed.

Lemma fill_pages_order (targets : list Z) :
  forall page_idx n_targets max_items (er : list Event) (tr : list Task)
         (produced : list PageT) er' tr',
  fill_pages page_idx n_targets max_items targets [] er tr = (produced, er', tr') ->
  Forall (fun t => 0 <= t) targets ->
  zsum targets = len er + len tr ->
  events_then_tasks produced.
Proof.
  induction targets as [|t later IH];
    intros page_idx n_targets max_items er tr produced er' tr'; cbn [fill_pages].
  - intros H _ _; injection H as <- _ _. constructor.
  - destruct (fill_page page_idx n_targets max_items t er tr) as [[p er1] tr1] eqn:Hp.
    rewrite fill_pages_appends.
    destruct (fill_pages (page_idx + 1) n_targets max_items later [] er1 tr1)
      as [[ps er2] tr2] eqn:Hps.
    intros H Hpos Hsum; injection H as <- _ _. simpl.
    inversion Hpos as [|? ? Ht Hlater]; subst.
    assert (0 <= zsum later) as Hz by (clear - Hlater; induction Hlater; simpl; lia).
    cbn [zsum fold_right] in Hsum. fold (zsum later) in Hsum.
    pose proof (fill_page_exact _ _ _ _ _ _ _ _ _ Hp ltac:(lia)) as Hx.
    pose proof (fill_page_tasks_after_events _ _ _ _ _ _ _ _ _ Hp ltac:(lia)) as Hord.
    apply fill_page_conserve in Hp. destruct Hp as [P1 P2].
    assert (zsum later = len er1 + len tr1) as Hs'.
    { rewrite <- P1, <- P2, !len_app in Hsum. unfold page_total in Hx. lia. }
    destruct Hord as [Hnone| ->].
    + apply only_events_so_far; [exact Hnone|]. eapply IH; eauto.
    + apply tasks_from_here. eapply fill_pages_without_events. exact Hps.
Qed.

(** X2: events are placed before tasks: the pages are pages of events only,
    then at most one page holding both, then pages of tasks only. *)
Theorem events_fill_first (E : list Event) (T : list Task) (max_items : Z) :
  0 < max_items -> fills_events_first E T max_items.
Proof.
  intros Hm. unfold fills_events_first.
  destruct (Z_le_gt_dec (len E + len T) 1000) as [Hle|Hover].
  2:{ exists [mkPage [] []]. split; [|apply tasks_from_here; constructor].
      unfold distribute_items_across_pages.
      now replace (len E + len T >? 1000) with true by (symmetry; lia). }
  destruct (Z_le_gt_dec (len E + len T) max_items) as [Hfit|Hbig].
  { exists [mkPage E T]. rewrite small_input_cases by assumption.
    split; [reflexivity | apply tasks_from_here; constructor]. }
  set (total := len E + len T).
  set (p := (total + max_items - 1) / max_items).
  pose proof (min_pages_ceiling total max_items Hm) as Hceil. cbv zeta in Hceil.
  fold p in Hceil.
  assert (2 <= p) as Hp by (unfold total in *; nia).
  destruct (target_fits total max_items p ltac:(lia) ltac:(unfold total in *; lia))
    as (Ht0 & Ht1 & Ht2).
  unfold distribute_items_across_pages.
  replace (len E + len T >? 1000) with false by (symmetry; lia).
  replace (negb (nonempty E) && negb (nonempty T)) with false.
  2:{ destruct E, T; try reflexivity. unfold len in Hbig; simpl in Hbig. lia. }
  replace (len E + len T <=? max_items) with false by (symmetry; lia).
  fold total. unfold py_floordiv, py_mod.
  replace (max_items =? 0) with false by (symmetry; lia). cbn [bind]. fold p.
  replace (p =? 0) with false by (symmetry; lia). cbn [bind].
  rewrite page_targets_of_plain by exact Ht0.
  set (targets := map _ (py_range p)).
  destruct (fill_pages 0 (len targets) max_items targets [] E T)
    as [[pages er] tr] eqn:Hfp.
  pose proof (targets_bound (total / p) (total mod p) max_items p Ht0 Ht2 Ht1) as Hb.
  fold targets in Hb.
  assert (Forall (fun t => 0 <= t) targets) as Hpos
    by (eapply Forall_impl; [|exact Hb]; simpl; intros; lia).
  assert (zsum targets = len E + len T) as Hsum.
  { unfold targets, py_range. rewrite targets_sum by (apply Z.mod_pos_bound; lia).
    pose proof (Z.div_mod total p ltac:(lia)).
    pose proof (Z.mod_pos_bound total p ltac:(lia)). fold total. lia. }
  destruct (fill_pages_exact _ _ _ _ _ _ _ _ _ _ Hfp Hpos Hsum) as (-> & -> & _).
  exists pages. rewrite place_leftovers_none. split; [reflexivity|].
  eapply fill_pages_order; eauto.
Qed.

End Facts.

Lemma events_fill_first_witness :
  0 < 6 /\ fills_events_first (sample_events 9) sample_tasks 6.
Proof. split; [reflexivity|]. apply events_fill_first. reflexivity. Defined.

End FillOrderFacts.

(** ** Writing spaces *)

Module WritingSpacesFacts.
Import WritingSpaces.

Section Facts.

Context {Entry : Type}.
Variable blank_notes : Z -> Entry.

Lemma len_cons (x : Entry) (l : list Entry) : len (x :: l) = 1 + len l.
Proof. unfold len. simpl length. lia. Qed.

Lemma spaces_loop_length (events : list Entry) : forall i n,
  0 <= i -> n = i + len events ->
  len (spaces_loop blank_notes i n events)
  = len events + (Z.max (n - 1) i / 3 - i / 3).
Proof.
  induction events as [|e rest IH]; intros i n Hi Hn.
  - unfold len in *. simpl in *. replace (Z.max (n - 1) i) with i by lia. lia.
  - rewrite len_cons in Hn. cbn [spaces_loop].
    pose proof (IH (i + 1) n ltac:(lia) ltac:(lia)) as IH'.
    unfold len in *. rewrite length_app. simpl length in *.
    destruct ((i + 1) mod 3 =? 0) eqn:Hmod; destruct (i <? n - 1) eqn:Hlast;
      cbn [andb length];
      pose proof (Zlength_correct rest);
      Z.div_mod_to_equations; lia.
Qed.

(** X3: a list of [n] events comes back with one blank after every third
    event except the last: [n + (n - 1) // 3] entries, none added to an empty
    list. *)
Theorem writing_spaces_length (events : list Entry) :
  length (add_strategic_writing_spaces blank_notes events)
  = (length events + (length events - 1) / 3)%nat.
Proof.
  unfold add_strategic_writing_spaces. destruct events as [|e rest]; [reflexivity|].
  cbn [nonempty negb].
  pose proof (spaces_loop_length (e :: rest) 0 (len (e :: rest)) ltac:(lia) ltac:(lia)) as H.
  unfold len in *. apply Nat2Z.inj. rewrite H, Nat2Z.inj_add, Nat2Z.inj_div.
  simpl length. rewrite Nat2Z.inj_sub by lia.
  replace (Z.max (Z.of_nat (S (length rest)) - 1) 0)
    with (Z.of_nat (S (length rest)) - Z.of_nat 1) by lia.
  change (0 / 3) with 0. change (Z.of_nat 3) with 3. lia.
Qed.


(** The [k]-th event stands at index [k + k // 3] of the result: three events,
    one blank, three events, one blank, and so on. *)
Lemma spaces_loop_nth (events : list Entry) : forall i n k,
  0 <= i -> n = i + len events -> (k < length events)%nat ->
  nth_error (spaces_loop blank_notes i n events)
            (Z.to_nat (Z.of_nat k + ((i + Z.of_nat k) / 3 - i / 3)))
  = nth_error events k.
Proof.
  induction events as [|e rest IH]; intros i n k Hi Hn Hk; [simpl in Hk; lia|].
  rewrite len_cons in Hn. cbn [spaces_loop].
  destruct k as [|k].
  - replace (Z.to_nat _) with 0%nat; [reflexivity|].
    rewrite Z.add_0_r. simpl Z.of_nat. lia.
  - simpl in Hk. assert (k < length rest)%nat as Hk' by lia.
    specialize (IH (i + 1) n k ltac:(lia) ltac:(lia) Hk').
    assert (i < n - 1) as Hlast by (unfold len in *; lia).
    replace (i <? n - 1) with true by (symmetry; lia).
    rewrite andb_true_r. rewrite Nat2Z.inj_succ.
    replace (i + Z.succ (Z.of_nat k)) with (i + 1 + Z.of_nat k) by lia.
    set (q := (i + 1 + Z.of_nat k) / 3) in *.
    assert (i / 3 <= q) as Hq.
    { unfold q. apply Z.div_le_mono; lia. }
    assert ((i + 1) / 3 <= q) as Hq1.
    { unfold q. apply Z.div_le_mono; lia. }
    destruct ((i + 1) mod 3 =? 0) eqn:Hmod.
    + assert ((i + 1) / 3 = i / 3 + 1) as Hstep
        by (apply Z.eqb_eq in Hmod; Z.div_mod_to_equations; lia).
      replace (Z.to_nat (Z.succ (Z.of_nat k) + (q - i / 3)))
        with (S (S (Z.to_nat (Z.of_nat k + (q - (i + 1) / 3))))) by lia.
      exact IH.
    + assert ((i + 1) / 3 = i / 3) as Hstep
        by (apply Z.eqb_neq in Hmod; Z.div_mod_to_equations; lia).
      replace (Z.to_nat (Z.succ (Z.of_nat k) + (q - i / 3)))
        with (S (Z.to_nat (Z.of_nat k + (q - (i + 1) / 3)))) by lia.
      exact IH.
Qed.

(** X4: the event of index [k] stands at index [k + k // 3] of the result. *)
Theorem writing_spaces_positions (events : list Entry) (k : nat) :
  (k < length events)%nat ->
  nth_error (add_strategic_writing_spaces blank_notes events) (k + k / 3)
  = nth_error events k.
Proof.
  intros Hk. unfold add_strategic_writing_spaces.
  destruct events as [|e rest]; [simpl in Hk; lia|]. cbn [nonempty negb].
  rewrite <- (spaces_loop_nth (e :: rest) 0 (len (e :: rest)) k) by (lia || exact Hk).
  f_equal. change (0 / 3) with 0. rewrite Z.add_0_l, Z.sub_0_r.
  rewrite <- (Nat2Z.id (k + k / 3)). f_equal.
  rewrite Nat2Z.inj_add, Nat2Z.inj_div. reflexivity.
Qed.

Section Blanks.

(** [entry.get('is_blank_entry')]: the flag only blank entries carry. *)
Variable is_blank_entry : Entry -> bool.
Hypothesis blank_flagged : forall i, is_blank_entry (blank_notes i) = true.

Lemma spaces_loop_events (events : list Entry) : forall i n,
  Forall (fun e => is_blank_entry e = false) events ->
  filter (fun e => negb (is_blank_entry e)) (spaces_loop blank_notes i n events)
  = events.
Proof.
  induction events as [|e rest IH]; intros i n Hev; [reflexivity|].
  inversion Hev as [|? ? He Hrest]; subst. cbn [spaces_loop].
  rewrite filter_app, IH by assumption. cbn [filter]. rewrite He. cbn [negb].
  destruct (_ && _); cbn [filter]; [rewrite blank_flagged|]; reflexivity.
Qed.

(** X5: taking the blank entries out again gives back the events, in
    order. *)
Theorem writing_spaces_keep_events (events : list Entry) :
  Forall (fun e => is_blank_entry e = false) events ->
  filter (fun e => negb (is_blank_entry e))
         (add_strategic_writing_spaces blank_notes events) = events.
Proof.
  intros Hev. unfold add_strategic_writing_spaces.
  destruct events as [|e rest]; [reflexivity|]. cbn [nonempty negb].
  now apply spaces_loop_events.
Qed.

End Blanks.

Lemma last_after (l1 l2 : list Entry) (d : Entry) :
  l2 <> [] -> last (l1 ++ l2) d = last l2 d.
Proof.
  intros Hne. induction l1 as [|x l1 IH]; [reflexivity|].
  simpl app. cbn [last]. destruct (l1 ++ l2) eqn:Happ; [|exact IH].
  apply app_eq_nil in Happ. destruct Happ. contradiction.
Qed.

Lemma spaces_loop_last (events : list Entry) (d : Entry) : forall i n,
  n = i + len events ->
  last (spaces_loop blank_notes i n events) d = last events d.
Proof.
  induction events as [|e rest IH]; intros i n Hn; [reflexivity|].
  rewrite len_cons in Hn. cbn [spaces_loop].
  destruct rest as [|e' rest'].
  - unfold len in Hn. simpl in Hn.
    replace (i <? n - 1) with false by (symmetry; lia).
    rewrite andb_false_r. reflexivity.
  - specialize (IH (i + 1) n ltac:(lia)).
    assert (spaces_loop blank_notes (i + 1) n (e' :: rest') <> []) as Hne
      by (cbn [spaces_loop]; discriminate).
    rewrite last_after by exact Hne.
    rewrite IH. reflexivity.
Qed.

(** X6: the result ends with the last event, never with a blank. *)
Theorem writing_spaces_end_with_event (events : list Entry) (d : Entry) :
  last (add_strategic_writing_spaces blank_notes events) d = last events d.
Proof.
  unfold add_strategic_writing_spaces.
  destruct events as [|e rest]; [reflexivity|]. cbn [nonempty negb].
  apply spaces_loop_last. lia.
Qed.

End Facts.

Lemma writing_spaces_positions_witness :
  (4 < length five_entries)%nat /\
  nth_error (add_strategic_writing_spaces sample_blank five_entries) (4 + 4 / 3)
  = nth_error five_entries 4.
Proof.
  split; [vm_compute; lia|].
  apply writing_spaces_positions. vm_compute. lia.
Defined.

Lemma writing_spaces_keep_events_witness :
  (forall i, sample_is_blank (sample_blank i) = true) /\
  Forall (fun e => sample_is_blank e = false) five_entries /\
  filter (fun e => negb (sample_is_blank e))
         (add_strategic_writing_spaces sample_blank five_entries) = five_entries.
Proof.
  assert (forall i, sample_is_blank (sample_blank i) = true) as Hflag
    by (intros i; reflexivity).
  assert (Forall (fun e => sample_is_blank e = false) five_entries) as Hev
    by (repeat constructor).
  split; [exact Hflag|]. split; [exact Hev|].
  apply (writing_spaces_keep_events sample_blank sample_is_blank Hflag five_entries Hev).
Defined.

End WritingSpacesFacts.

(** ** Display icons *)

Module IconsFacts.
Import Icons.

Lemma lower_ascii_not_upper (c : ascii) : is_upper_ascii (Text.lower_ascii c) = false.
Proof. destruct c as [[] [] [] [] [] [] [] []]; reflexivity. Qed.

Lemma lower_has_no_upper (s : string) : has_upper (Text.lower s) = false.
Proof.
  induction s as [|c s IH]; [reflexivity|].
  simpl. now rewrite lower_ascii_not_upper, IH.
Qed.

Lemma prefix_no_upper (k : string) : forall h,
  String.prefix k h = true -> has_upper h = false -> has_upper k = false.
Proof.
  induction k as [|c k IH]; intros h Hp Hh; [reflexivity|].
  destruct h as [|c' h]; simpl in Hp; [discriminate|].
  destruct (Ascii.ascii_dec c c') as [<-|]; [|discriminate].
  simpl in Hh. apply orb_false_iff in Hh. destruct Hh as [Hc Hh].
  simpl. rewrite Hc. simpl. now apply IH with h.
Qed.

Lemma contains_no_upper (k h : string) :
  Text.contains k h = true -> has_upper h = false -> has_upper k = false.
Proof.
  induction h as [|c h IH]; simpl; intros Hc Hh.
  - now apply prefix_no_upper with EmptyString.
  - apply orb_true_iff in Hc. destruct Hc as [Hp|Hc].
    + now apply prefix_no_upper with (String c h).
    + apply orb_false_iff in Hh. now apply IH.
Qed.

Lemma any_keyword_without_capitals (lower_summary : string) (keywords : list string) :
  has_upper lower_summary = false ->
  any_keyword_in lower_summary (filter (fun k => negb (has_upper k)) keywords)
  = any_keyword_in lower_summary keywords.
Proof.
  intros Hl. induction keywords as [|k keywords IH]; [reflexivity|].
  simpl. destruct (has_upper k) eqn:Hk; simpl; rewrite IH; [|reflexivity].
  destruct (Text.contains k lower_summary) eqn:Hc; [|reflexivity].
  rewrite (contains_no_upper _ _ Hc Hl) in Hk. discriminate.
Qed.

Lemma first_matching_without_capitals (table : list (string * list string))
  (lower_summary : string) :
  has_upper lower_summary = false ->
  first_matching_icon (without_capitals table) lower_summary
  = first_matching_icon table lower_summary.
Proof.
  intros Hl. induction table as [|[icon keywords] table IH]; [reflexivity|].
  cbn [without_capitals map first_matching_icon].
  rewrite any_keyword_without_capitals by exact Hl.
  fold (without_capitals table). now rewrite IH.
Qed.

(** X7: a keyword with a capital letter can never match, the summary being
    lowercased first: the table without such keywords gives the same icons. *)
Theorem capital_keywords_are_dead (table : list (string * list string))
  (summary : string) :
  get_event_icon_in (without_capitals table) summary
  = get_event_icon_in table summary.
Proof.
  unfold get_event_icon_in.
  now rewrite first_matching_without_capitals by apply lower_has_no_upper.
Qed.

Lemma any_keyword_false (lower_summary : string) (keywords : list string) :
  any_keyword_in lower_summary keywords = false <->
  forall k, In k keywords -> Text.contains k lower_summary = false.
Proof.
  unfold any_keyword_in. induction keywords as [|k keywords IH]; simpl.
  - split; [intros _ k [] | reflexivity].
  - rewrite orb_false_iff, IH. split.
    + intros [H1 H2] k' [<-|Hin]; auto.
    + intros H. split; [apply H; now left | intros k' Hk'; apply H; now right].
Qed.

Lemma any_keyword_unseen (lower_summary : string) (seen keywords : list string) :
  (forall k, In k seen -> Text.contains k lower_summary = false) ->
  any_keyword_in lower_summary
    (filter (fun k => negb (existsb (String.eqb k) seen)) keywords)
  = any_keyword_in lower_summary keywords.
Proof.
  intros Hseen. induction keywords as [|k keywords IH]; [reflexivity|].
  simpl. destruct (existsb (String.eqb k) seen) eqn:Hk; simpl; rewrite IH;
    [|reflexivity].
  apply existsb_exists in Hk. destruct Hk as (k' & Hin & Heq).
  apply String.eqb_eq in Heq. subst k'. now rewrite (Hseen k Hin).
Qed.

Lemma first_matching_without_repeats (table : list (string * list string))
  (lower_summary : string) : forall seen,
  (forall k, In k seen -> Text.contains k lower_summary = false) ->
  first_matching_icon (without_repeats_from seen table) lower_summary
  = first_matching_icon table lower_summary.
Proof.
  induction table as [|[icon keywords] table IH]; intros seen Hseen; [reflexivity|].
  cbn [without_repeats_from first_matching_icon].
  rewrite any_keyword_unseen by exact Hseen.
  destruct (any_keyword_in lower_summary keywords) eqn:Hrow; [reflexivity|].
  apply IH. intros k Hk. apply in_app_or in Hk. destruct Hk as [Hk|Hk].
  - now apply Hseen.
  - now apply (proj1 (any_keyword_false _ _) Hrow).
Qed.

(** X8: rows are tried in table order and the first match decides, so a
    keyword that an earlier row already lists never decides: the table
    without such repeats gives the same icons. *)
Theorem repeated_keywords_are_dead (table : list (string * list string))
  (summary : string) :
  get_event_icon_in (without_repeats table) summary
  = get_event_icon_in table summary.
Proof.
  unfold get_event_icon_in, without_repeats.
  rewrite first_matching_without_repeats; [reflexivity | intros k []].
Qed.

End IconsFacts.

(** ** Which events the validator keeps *)

Module ValidatorSweepFacts.
Import Time Events Validator SortFacts ValidatorFacts ValidatorSweep.


Lemma kept_first (events : list Event) : forall seen e,
  In e (kept events seen) ->
  exists before after,
    events = before ++ e :: after /\
    ~ In (key_of e) (map key_of before) /\ ~ In (key_of e) seen /\
    dropped e = false.
Proof.
  induction events as [|x rest IH]; intros seen e; cbn [kept]; [intros []|].
  set (seen' := if key_in (key_of x) seen then seen else key_of x :: seen).
  assert (forall k, In k seen \/ k = key_of x -> In k seen') as Hgrow.
  { intros k [Hk | ->]; unfold seen'.
    - destruct (key_in (key_of x) seen); [exact Hk | now right].
    - destruct (key_in (key_of x) seen) eqn:Hd; [now apply key_in_In | now left]. }
  assert (In e (kept rest seen') ->
          exists before after,
            x :: rest = before ++ e :: after /\
            ~ In (key_of e) (map key_of before) /\ ~ In (key_of e) seen /\
            dropped e = false) as Hlater.
  { intros Hin. destruct (IH seen' e Hin) as (b & a & -> & Hb & Hs & Hd).
    exists (x :: b), a. split; [reflexivity|]. split; [|split; [|exact Hd]].
    - simpl. intros [Hx|Hx]; [|contradiction]. apply Hs, Hgrow. right. now symmetry.
    - intros Hk. apply Hs, Hgrow. now left. }
  destruct (negb (key_in (key_of x) seen) && negb (dropped x)) eqn:Hkeep.
  - intros [<-|Hin]; [|now apply Hlater].
    apply andb_true_iff in Hkeep. destruct Hkeep as [Hdup Hdrop].
    apply negb_true_iff in Hdup, Hdrop.
    exists [], rest. repeat split; auto.
    intros Hk. apply key_in_In in Hk. congruence.
  - exact Hlater.
Qed.

Lemma first_kept (before : list Event) : forall seen e after,
  ~ In (key_of e) (map key_of before) -> ~ In (key_of e) seen ->
  dropped e = false ->
  In e (kept (before ++ e :: after) seen).
Proof.
  induction before as [|x before IH]; intros seen e after Hb Hs Hd.
  - cbn [app kept].
    replace (key_in (key_of e) seen) with false.
    + rewrite Hd. cbn [negb andb]. now left.
    + symmetry. destruct (key_in (key_of e) seen) eqn:H; [|reflexivity].
      apply key_in_In in H. contradiction.
  - cbn [app kept].
    assert (In e (kept (before ++ e :: after)
                       (if key_in (key_of x) seen then seen else key_of x :: seen)))
      as Hin.
    { apply IH; [intros H; apply Hb; now right | | exact Hd].
      destruct (key_in (key_of x) seen); [exact Hs|].
      intros [Hx|Hx]; [apply Hb; left; exact Hx | contradiction]. }
    destruct (_ && _); [now right | exact Hin].
Qed.

(** X9: an event is in the validator's output exactly when it is the first
    event of the input with its identity key and is itself neither
    cancelled-looking nor bleeding.  A later event with the same key is
    dropped even when the first holder was dropped. *)
Theorem validate_events_membership (events : list Event) (e : Event) :
  In e (validate_events events) <-> first_of_its_key events e.
Proof.
  rewrite validate_events_arrange, arrange_In. unfold first_of_its_key. split.
  - intros Hin. destruct (kept_first events [] e Hin) as (b & a & H1 & H2 & _ & H3).
    exists b, a. auto.
  - intros (b & a & -> & Hb & Hd). apply first_kept; auto.
Qed.

(** X10: no two events of the output share an identity key. *)
Theorem validate_events_distinct_keys (events : list Event) :
  NoDup (map key_of (validate_events events)).
Proof.
  rewrite validate_events_arrange.
  eapply Permutation_NoDup; [|apply (kept_NoDup events [])].
  apply Permutation_map. symmetry. apply arrange_perm.
Qed.

(** X11: an input without duplicates and without events the sweep drops is
    only reordered. *)
Theorem clean_events_only_reordered (events : list Event) :
  NoDup (map key_of events) ->
  Forall (fun e => dropped e = false) events ->
  Permutation (validate_events events) events.
Proof.
  intros Hnd Hok. rewrite validate_events_arrange, kept_all.
  - apply arrange_perm.
  - exact Hnd.
  - rewrite Forall_forall in Hok. intros e He. split; [intros []|now apply Hok].
Qed.

Lemma clean_events_witness :
  NoDup (map key_of [review_at_ten; standup_at_nine]) /\
  Forall (fun e => dropped e = false) [review_at_ten; standup_at_nine] /\
  Permutation (validate_events [review_at_ten; standup_at_nine])
              [review_at_ten; standup_at_nine].
Proof.
  assert (NoDup (map key_of [review_at_ten; standup_at_nine])) as Hnd.
  { repeat constructor; simpl; intros H; repeat destruct H as [H|H];
      try discriminate H; exact H. }
  assert (Forall (fun e => dropped e = false) [review_at_ten; standup_at_nine]) as Hok
    by (repeat constructor).
  split; [exact Hnd|]. split; [exact Hok|].
  apply (clean_events_only_reordered _ Hnd Hok).
Defined.

End ValidatorSweepFacts.

(** ** Pass 1 and the local day of all-day values *)

Module RecurrencePass1Facts.
Import Time Events Recurrence RecurrencePass1.


Lemma mixed_span_raises (c : Component) :
  mixed_span c = true -> cancellation_verdict c = Raise TypeError.
Proof.
  unfold mixed_span, cancellation_verdict.
  destruct (DTSTART c) as [[o|w|u z]|]; try discriminate;
    destruct (DTEND c) as [[o'|w'|u' z']|]; try discriminate; reflexivity.
Qed.

Lemma pass1_raises (components : list Component) (c : Component) : forall st,
  In c components -> mixed_span c = true ->
  exists ex, pass1 components st = Raise ex.
Proof.
  induction components as [|x rest IH]; intros st Hin Hc; [destruct Hin|].
  cbn [pass1]. destruct Hin as [->|Hin].
  - unfold classify. rewrite (mixed_span_raises c Hc). simpl. eauto.
  - destruct (classify st x) as [st'|ex]; simpl; [now apply IH | eauto].
Qed.

Section Expansion.

Variable rule : Type.
Variable rrulestr : string -> Z -> result rule.
Variable between : rule -> Z -> Z -> result (list Z).
Variable convert_until : string -> tzinfo -> string.
Variable timezone : tzinfo.
Variable now : Z.

Local Abbreviation parse :=
  (parse_events rule rrulestr between convert_until timezone now).

(** X12: one VEVENT with an all-day start and a datetime end makes the span
    subtraction of Pass 1 raise, and the whole payload resolves to nothing. *)
Theorem mixed_span_empties_everything (components : list Component) (c : Component) :
  In c components -> mixed_span c = true -> parse components = [].
Proof.
  intros Hin Hc. unfold parse_events.
  destruct (pass1_raises components c (mkBuckets [] [] []) Hin Hc) as [ex ->].
  reflexivity.
Qed.

Lemma expand_master_uid (st : Buckets) (event : Component) (e : Event) :
  In e (expand_master rule rrulestr between convert_until timezone now st event) ->
  uid e = component_uid event /\
  key_in (component_uid event, None) (cancelled_keys st) = false.
Proof.
  unfold expand_master.
  destruct (key_in (component_uid event, None) (cancelled_keys st)) eqn:Hk;
    [intros []|].
  intros Hin. split; [|reflexivity]. revert Hin.
  destruct (RRULE event) as [text|]; destruct (DTSTART event) as [start|];
    simpl; try tauto.
  - destruct (rule_of _ _ _ _ _ _) as [r|ex]; [|intros []].
    intros Hin. apply in_flat_map in Hin. destruct Hin as (occ & _ & He).
    unfold instance_of in He.
    destruct (existsb _ _ || key_in _ _); [destruct He|].
    destruct (dict_get _ _); destruct He as [<-|[]]; reflexivity.
  - intros [<-|[]]. reflexivity.
Qed.

(** X13: no event is emitted for a series whose key [(uid, None)] is in the
    cancelled set: a cancelled master silences every master with its UID. *)
Theorem cancelled_series_emit_nothing (components : list Component) (e : Event) :
  In e (parse components) ->
  exists st, pass1 components (mkBuckets [] [] []) = Ok st /\
             key_in (uid e, None) (cancelled_keys st) = false.
Proof.
  unfold parse_events.
  destruct (pass1 components _) as [st|ex]; [|intros []].
  intros Hin. apply in_flat_map in Hin. destruct Hin as (m & _ & He).
  apply expand_master_uid in He. destruct He as [-> Hk]. eauto.
Qed.

End Expansion.

Lemma classify_masters (st st' : Buckets) (c : Component) :
  classify st c = Ok st' ->
  master_events st' = master_events st ++ (if is_master c then [c] else []).
Proof.
  unfold classify, is_master.
  destruct (cancellation_verdict c) as [[|]|ex]; simpl; [| |discriminate].
  - intros H; injection H as <-. simpl. now rewrite app_nil_r.
  - destruct (RECURRENCE_ID c); intros H; injection H as <-; simpl;
      [now rewrite app_nil_r | reflexivity].
Qed.

Lemma pass1_masters (components : list Component) : forall st st',
  pass1 components st = Ok st' ->
  master_events st' = master_events st ++ filter is_master components.
Proof.
  induction components as [|c rest IH]; intros st st'; cbn [pass1].
  - intros H; injection H as <-. simpl. now rewrite app_nil_r.
  - destruct (classify st c) as [st1|ex] eqn:Hc; simpl; [|discriminate].
    intros H. rewrite (IH _ _ H), (classify_masters _ _ _ Hc), <- app_assoc.
    f_equal. simpl. destruct (is_master c); reflexivity.
Qed.

(** X14: when Pass 1 completes, the masters are exactly the components without
    RECURRENCE-ID whose verdict is false, in payload order. *)
Theorem masters_are_the_uncancelled (components : list Component) (st : Buckets) :
  pass1 components (mkBuckets [] [] []) = Ok st ->
  master_events st = filter is_master components.
Proof. intros H. now rewrite (pass1_masters _ _ _ H). Qed.

(** X15: an all-day value is read as midnight UTC of its date and then
    moved to the local zone, so the local day it falls on depends on the
    offset: its own date at or ahead of UTC, the day before behind UTC. *)
Theorem all_day_local_day (timezone : tzinfo) (d : Z) :
  - us_per_day <= utcoffset timezone < us_per_day ->
  arrow_naive (floor_day (to_local timezone (Date d)))
  = (if utcoffset timezone <? 0 then d - 1 else d) * us_per_day.
Proof.
  unfold to_local, floor_day, arrow_get_in, arrow_naive, arrow_to, arrow_get.
  cbn [instant zone]. unfold us_per_day. intros H.
  destruct (utcoffset timezone <? 0) eqn:Hneg.
  - replace ((d * 86400000000 + utcoffset timezone) / 86400000000) with (d - 1); [lia|].
    apply Z.div_unique with (utcoffset timezone + 86400000000); lia.
  - replace ((d * 86400000000 + utcoffset timezone) / 86400000000) with d; [lia|].
    apply Z.div_unique with (utcoffset timezone); lia.
Qed.

Lemma mixed_span_witness :
  In half_day_off [daily_standup; half_day_off] /\
  mixed_span half_day_off = true /\
  parse_events simple_rule simple_rrulestr simple_between keep_rule_text
               UTC sample_now [daily_standup; half_day_off] = [].
Proof.
  assert (In half_day_off [daily_standup; half_day_off]) as Hin
    by (right; left; reflexivity).
  split; [exact Hin|]. split; [reflexivity|].
  apply (mixed_span_empties_everything simple_rule simple_rrulestr simple_between
           keep_rule_text UTC sample_now _ half_day_off Hin).
  reflexivity.
Defined.

Lemma cancelled_series_witness :
  In second_standup
     (parse_events simple_rule simple_rrulestr simple_between keep_rule_text
                   UTC sample_now [daily_standup; moved_standup]) /\
  exists st, pass1 [daily_standup; moved_standup] (mkBuckets [] [] []) = Ok st /\
             key_in (uid second_standup, None) (cancelled_keys st) = false.
Proof.
  assert (In second_standup
            (parse_events simple_rule simple_rrulestr simple_between keep_rule_text
                          UTC sample_now [daily_standup; moved_standup])) as Hin.
  { vm_compute. right. left. reflexivity. }
  split; [exact Hin|].
  apply (cancelled_series_emit_nothing simple_rule simple_rrulestr simple_between
           keep_rule_text UTC sample_now _ _ Hin).
Defined.

Lemma masters_witness :
  pass1 [daily_standup; canceled_review] (mkBuckets [] [] [])
  = Ok (mkBuckets [daily_standup] [] [component_key canceled_review]) /\
  master_events (mkBuckets [daily_standup] [] [component_key canceled_review])
  = filter is_master [daily_standup; canceled_review].
Proof.
  split; [reflexivity|].
  apply masters_are_the_uncancelled. reflexivity.
Defined.

Lemma all_day_local_day_witness :
  - us_per_day <= utcoffset five_behind < us_per_day /\
  arrow_naive (floor_day (to_local five_behind (Date 20000))) = 19999 * us_per_day.
Proof.
  split; [vm_compute; split; [discriminate | reflexivity]|].
  apply (all_day_local_day five_behind 20000).
  vm_compute. split; [discriminate | reflexivity].
Defined.

End RecurrencePass1Facts.

(** ** The two horizon days *)

Module DayFilterFacts.
Import Time Events DayFilter.

(** X16: an event is listed under both days exactly when it is timed, begins
    before the midnight between them and ends after it; an all-day event is
    never listed twice. *)
Theorem listed_twice_iff_straddling (now : Arrow) (all_events : list Event) (e : Event) :
  In e (today_events now all_events) /\ In e (tomorrow_events now all_events) <->
  In e all_events /\ all_day e = false /\
  instant (begin_local e) < instant (tomorrow_start now) < instant (end_local e).
Proof.
  unfold today_events, tomorrow_events. rewrite !filter_In.
  unfold is_event_for_day, tomorrow_end, tomorrow_start, today_end, today_start,
    shift_days, arrow_eqb, arrow_ltb. cbn [instant zone].
  pose proof (eq_refl : 0 < us_per_day) as Hday.
  destruct (all_day e); split.
  - intros [[_ H1] [_ H2]]. lia.
  - intros (_ & H & _). discriminate.
  - intros [[Hin H1] [_ H2]]. repeat split; auto; lia.
  - intros (Hin & _ & H). split; (split; [exact Hin | lia]).
Qed.

End DayFilterFacts.

(** ** One VEVENT at a time *)

Module SingleEventFacts.
Import Time Recurrence TimeNormalizer TimeNormalizerFacts SingleEvent.

Lemma minus_one_day (o : Z) : o + - us_per_day / us_per_day = o - 1.
Proof. reflexivity || (change (- us_per_day / us_per_day) with (-1); lia). Qed.

Lemma bind_ok {A B : Type} (r : result A) (k : A -> result B) (b : B) :
  bind r k = Ok b -> exists a, r = Ok a /\ k a = Ok b.
Proof. destruct r as [a|ex]; simpl; [eauto | discriminate]. Qed.

Lemma checked_add_ok (x : dt) (delta : Z) (y : dt) :
  checked_add x delta = Ok y -> y = dt_add x delta.
Proof.
  unfold checked_add. destruct (representable _); [|discriminate].
  intros H; injection H as <-. reflexivity.
Qed.

Lemma checked_add_to_ok (x : option dt) (delta : Z) (r : option dt) :
  checked_add_to x delta = Ok r -> r = option_map (fun v => dt_add v delta) x.
Proof.
  destruct x as [v|]; simpl.
  - intros H. apply bind_ok in H. destruct H as (y & Hy & H).
    injection H as <-. apply checked_add_ok in Hy. now subst.
  - intros H; injection H as <-. reflexivity.
Qed.

(** What a conversion that returns gives back: the date or the naive value
    itself, an aware value for an aware one. *)
Lemma convert_to_local_ok (pytz_timezone : string -> option tzinfo)
  (same_zone_object : tzinfo -> tzinfo -> bool)
  (x : dt) (timezone_str : string) (r : option dt) :
  convert_to_local pytz_timezone same_zone_object (Some x) timezone_str = Ok r ->
  match x with
  | Aware u _ => exists z', r = Some (Aware u z')
  | _ => r = Some x
  end.
Proof.
  destruct x as [o|w|u z].
  - intros H; injection H as <-. reflexivity.
  - intros H; injection H as <-. reflexivity.
  - rewrite convert_to_local_aware.
    destruct (pytz_timezone timezone_str) as [tz|]; [|discriminate].
    destruct (same_zone_object z tz); [intros H; injection H as <-; eauto|].
    destruct (_ && _); [|discriminate]. intros H; injection H as <-; eauto.
Qed.

(** X17: a returned all-day event ends the day before its DTEND, and the day
    before its own start when the VEVENT has no DTEND; a returned timed event
    without DTEND lasts one hour from its converted start. *)
Theorem single_event_end_rules (pytz_timezone : string -> option tzinfo)
  (same_zone_object : tzinfo -> tzinfo -> bool)
  (component : Component) (cal_name : option string) (timezone_str : string)
  (event : RawEvent) :
  process_single_event pytz_timezone same_zone_object component cal_name timezone_str
  = Ok (Some event) ->
  end_rule component event.
Proof.
  unfold process_single_event, end_rule.
  destruct (String.eqb _ _); [discriminate|].
  destruct (DTSTART component) as [start|]; [|discriminate].
  intros H.
  apply bind_ok in H. destruct H as (start_local & Hs & H).
  apply bind_ok in H. destruct H as (end_local & He & H).
  apply bind_ok in H. destruct H as (end1 & H1 & H).
  apply bind_ok in H. destruct H as (end2 & H2 & H).
  injection H as <-. cbn [raw_begin_local raw_end_local].
  apply convert_to_local_ok in Hs, He.
  destruct start as [s|w|u z]; destruct (DTEND component) as [[e|w'|u' z']|];
    try exact I; cbn [is_date negb andb] in *;
    repeat match goal with
           | H : exists _, _ |- _ => destruct H as [? H]
           end; subst; cbn [is_datetime is_date_instance andb] in *;
    repeat first
      [ progress cbn [is_datetime is_date_instance andb] in *
      | match goal with
        | H : Ok _ = Ok _ |- _ => injection H as H; try subst
        | H : checked_add_to _ _ = Ok _ |- _ =>
            apply checked_add_to_ok in H; try subst
        end ];
    cbn [option_map dt_add]; rewrite ?minus_one_day; eauto.
Qed.

Lemma bind_raise {A B : Type} (r : result A) (k : A -> result B) (ex : exn) :
  bind r k = Raise ex -> r = Raise ex \/ exists a, r = Ok a /\ k a = Raise ex.
Proof.
  destruct r as [a|ex']; simpl; intros H; [right; eauto|].
  injection H as ->. now left.
Qed.

Section Edges.

Variable pytz_timezone : string -> option tzinfo.
Variable same_zone_object : tzinfo -> tzinfo -> bool.

(** Every zone of the database has an offset of less than a day. *)
Hypothesis zones_valid : forall name tz,
  pytz_timezone name = Some tz -> valid_offset tz = true.

(** The conversion of one end: its result keeps the kind of the value and,
    for a value well inside the range, stays clear of the ends; it raises
    only on an aware value, the lookup's exception for an unknown name and
    [OverflowError] only for a value that is not well inside. *)
Lemma convert_one_end (x : dt) (timezone_str : string) :
  match convert_to_local pytz_timezone same_zone_object (Some x) timezone_str with
  | Ok r =>
      exists y, r = Some y /\ is_date y = is_date x /\
        (is_aware (Some x) = true -> pytz_timezone timezone_str <> None) /\
        (well_inside x = true -> clear_of_the_ends y = true)
  | Raise ex =>
      is_aware (Some x) = true /\
      ((ex = UnknownTimeZoneError /\ pytz_timezone timezone_str = None) \/
       (ex = OverflowError /\ well_inside x = false))
  end.
Proof.
  destruct x as [o|w|u z].
  - exists (Date o). repeat split; try discriminate.
    unfold well_inside, clear_of_the_ends. lia.
  - exists (Naive w). repeat split; try discriminate.
    unfold well_inside, clear_of_the_ends, us_per_day. lia.
  - rewrite convert_to_local_aware.
    destruct (pytz_timezone timezone_str) as [tz|] eqn:Hz; [|simpl; auto].
    apply zones_valid in Hz.
    destruct (same_zone_object z tz);
      [|destruct (datetime_in_range u && datetime_in_range (u + utcoffset tz)) eqn:Hr].
    + exists (Aware u z). repeat split; try discriminate.
      revert Hz. unfold well_inside, clear_of_the_ends, valid_offset, us_per_day. lia.
    + exists (Aware u tz). repeat split; try discriminate.
      revert Hz Hr.
      unfold well_inside, clear_of_the_ends, valid_offset, datetime_in_range,
        datetime_max, datetime_min, date_max, date_min, us_per_day. lia.
    + split; [reflexivity|]. right. split; [reflexivity|].
      revert Hz Hr.
      unfold well_inside, clear_of_the_ends, valid_offset, datetime_in_range,
        datetime_max, datetime_min, date_max, date_min, us_per_day. lia.
Qed.

Lemma checked_add_clear (x : dt) (delta : Z) :
  clear_of_the_ends x = true -> delta = us_per_hour \/ delta = - us_per_day ->
  checked_add x delta = Ok (dt_add x delta).
Proof.
  intros Hx Hd. unfold checked_add.
  replace (representable (dt_add x delta)) with true; [reflexivity|].
  symmetry. revert Hx.
  assert (delta / us_per_day = 0 \/ delta / us_per_day = -1) as Hq
    by (destruct Hd as [-> | ->]; [left | right]; reflexivity).
  destruct x as [o|w|u z];
    unfold clear_of_the_ends, representable, dt_add, date_in_range,
      datetime_in_range, datetime_max, datetime_min, date_max, date_min;
    revert Hq; destruct Hd as [-> | ->]; unfold us_per_hour, us_per_day; lia.
Qed.

(** The two adjustments of the end raise nothing but [OverflowError], and
    nothing at all on values clear of the ends of the range. *)
Lemma checked_add_to_outcomes (x : dt) (delta : Z) :
  delta = us_per_hour \/ delta = - us_per_day ->
  match checked_add_to (Some x) delta with
  | Ok r => r = Some (dt_add x delta)
  | Raise ex => ex = OverflowError /\ clear_of_the_ends x = false
  end.
Proof.
  intros Hd. cbn [checked_add_to].
  destruct (clear_of_the_ends x) eqn:Hc.
  - rewrite (checked_add_clear x delta Hc Hd). reflexivity.
  - unfold checked_add. destruct (representable _); simpl; auto.
Qed.

(** X18: the outcomes: nothing for a cancelled status or a missing DTSTART;
    the timezone lookup's exception only when an aware start or end meets an
    unknown timezone name; [OverflowError] only when the start or the end is
    not well inside the datetime range; an event otherwise. *)
Theorem single_event_outcomes
  (component : Component) (cal_name : option string) (timezone_str : string) :
  let cancelled :=
    String.eqb (Text.upper (Text.text_or_empty (STATUS component))) "CANCELLED" in
  let aware :=
    is_aware (DTSTART component) ||
    (match DTSTART component with Some _ => is_aware (DTEND component) | None => false end) in
  match process_single_event pytz_timezone same_zone_object component cal_name
                             timezone_str with
  | Ok None => cancelled = true \/ DTSTART component = None
  | Ok (Some event) =>
      cancelled = false /\ DTSTART component <> None /\
      raw_is_recurring event = false /\ raw_cal_name event = cal_name /\
      (aware = true -> pytz_timezone timezone_str <> None)
  | Raise ex =>
      cancelled = false /\ DTSTART component <> None /\
      ((ex = UnknownTimeZoneError /\ aware = true /\
        pytz_timezone timezone_str = None) \/
       (ex = OverflowError /\ span_well_inside component = false))
  end.
Proof.
  cbv zeta. unfold process_single_event, span_well_inside.
  destruct (String.eqb _ _); [left; reflexivity|].
  destruct (DTSTART component) as [start|]; [|right; reflexivity].
  pose proof (convert_one_end start timezone_str) as Hs.
  destruct (convert_to_local _ _ (Some start) _) as [start_local|ex]; cbn [bind].
  2:{ destruct Hs as [Ha [[-> Hz] | [-> Hw]]];
        (split; [reflexivity|]; split; [discriminate|]).
      - left. rewrite Ha. auto.
      - right. rewrite Hw. auto. }
  destruct Hs as (ys & -> & Hkind & Hazs & Hcs).
  assert (exists end_,
            match DTEND component with Some e => e | None => start end = end_ /\
            (is_aware (Some end_) = true ->
             is_aware (Some start) || is_aware (DTEND component) = true) /\
            (is_aware (DTEND component) = true -> is_aware (Some end_) = true) /\
            (well_inside start &&
             match DTEND component with Some e => well_inside e | None => true end
             = true -> well_inside end_ = true))
    as (end_ & -> & Hae & Hea & Hwe).
  { destruct (DTEND component) as [e|]; eexists; (split; [reflexivity|]);
      repeat split; intros H; rewrite ?H, ?orb_true_r; try reflexivity;
      try discriminate; apply andb_true_iff in H; tauto. }
  pose proof (convert_one_end end_ timezone_str) as He.
  destruct (convert_to_local _ _ (Some end_) _) as [end_local|ex]; cbn [bind].
  2:{ destruct He as [Ha [[-> Hz] | [-> Hw]]];
        (split; [reflexivity|]; split; [discriminate|]).
      - left. rewrite (Hae Ha). auto.
      - right. split; [reflexivity|].
        destruct (well_inside start && _) eqn:Hin; [|reflexivity].
        rewrite (Hwe eq_refl) in Hw. discriminate. }
  destruct He as (ye & -> & _ & Haze & Hce).
  assert (is_aware (Some start) || is_aware (DTEND component) = true ->
          pytz_timezone timezone_str <> None) as Hknown.
  { intros H. apply orb_true_iff in H. destruct H as [H|H]; auto. }
  assert (well_inside start &&
          match DTEND component with Some e => well_inside e | None => true end
          = true -> clear_of_the_ends ys = true /\ clear_of_the_ends ye = true)
    as Hclear.
  { intros H. split; [apply Hcs | apply Hce, Hwe, H].
    apply andb_true_iff in H. tauto. }
  clear Hazs Haze Hae Hea Hcs Hce Hwe.
  destruct (negb _ && negb (is_date start) && is_datetime (Some ys)) eqn:Hc1.
  - assert (is_date start = false) as Hday.
    { destruct (is_date start); [|reflexivity].
      rewrite andb_false_r in Hc1. discriminate. }
    pose proof (checked_add_to_outcomes ys us_per_hour (or_introl eq_refl)) as H1.
    destruct (checked_add_to (Some ys) us_per_hour) as [r|ex]; cbn [bind].
    + rewrite Hday. cbn [andb bind]. repeat split; auto; discriminate.
    + destruct H1 as [-> Hnc]. split; [reflexivity|]. split; [discriminate|].
      right. split; [reflexivity|].
      destruct (well_inside start && _) eqn:Hin; [|reflexivity].
      destruct (Hclear eq_refl) as [Hy _]. congruence.
  - cbn [bind is_date_instance]. rewrite andb_true_r.
    destruct (is_date start).
    + pose proof (checked_add_to_outcomes ye (- us_per_day) (or_intror eq_refl)) as H2.
      destruct (checked_add_to (Some ye) (- us_per_day)) as [r|ex]; cbn [bind].
      * repeat split; auto; discriminate.
      * destruct H2 as [-> Hnc]. split; [reflexivity|]. split; [discriminate|].
        right. split; [reflexivity|].
        destruct (well_inside start && _) eqn:Hin; [|reflexivity].
        destruct (Hclear eq_refl) as [_ Hy]. congruence.
    + cbn [bind]. repeat split; auto; discriminate.
Qed.

End Edges.

Lemma etc_zones_valid (name : string) (tz : tzinfo) :
  etc_zones name = Some tz -> valid_offset tz = true.
Proof.
  unfold etc_zones.
  repeat (destruct (String.eqb name _);
          [intros H; injection H as <-; reflexivity|]).
  discriminate.
Qed.

Lemma single_event_end_rules_witness :
  process_single_event etc_zones no_shared_objects cancel_membership None "UTC"
  = Ok (Some gym_day) /\
  end_rule cancel_membership gym_day.
Proof.
  assert (process_single_event etc_zones no_shared_objects cancel_membership None "UTC"
          = Ok (Some gym_day)) as H by reflexivity.
  split; [exact H|].
  apply (single_event_end_rules etc_zones no_shared_objects cancel_membership None
           "UTC" gym_day H).
Defined.

(** An all-day VEVENT on 0001-01-01 without DTEND: the day before its start
    does not exist. *)
Lemma single_event_outcomes_witness :
  (forall name tz, etc_zones name = Some tz -> valid_offset tz = true) /\
  process_single_event etc_zones no_shared_objects first_day None "UTC"
  = Raise OverflowError /\
  span_well_inside first_day = false.
Proof.
  split; [exact etc_zones_valid|]. split; [reflexivity|].
  pose proof (single_event_outcomes etc_zones no_shared_objects etc_zones_valid
                first_day None "UTC") as H.
  vm_compute in H. destruct H as (_ & _ & [(Hx & _) | (_ & Hs)]);
    [discriminate Hx | exact Hs].
Defined.

(** A floating VEVENT at 9999-12-31T23:30 without DTEND: the default hour
    runs past the end of the range. *)
Lemma last_half_hour_overflows :
  process_single_event etc_zones no_shared_objects last_half_hour None "UTC"
  = Raise OverflowError.
Proof. reflexivity. Qed.

End SingleEventFacts.

(** ** The calendar feed file *)

Module FeedsFacts.
Import Feeds.

Lemma rstrip_cons (c : ascii) (s : string) :
  rstrip (String c s)
  = match rstrip s with
    | EmptyString => if is_space c then EmptyString else String c EmptyString
    | String c' k => String c (String c' k)
    end.
Proof. reflexivity. Qed.

Lemma rstrip_idempotent (s : string) : rstrip (rstrip s) = rstrip s.
Proof.
  induction s as [|c s IH]; [reflexivity|].
  rewrite rstrip_cons. destruct (rstrip s) as [|c' k] eqn:Hr.
  - destruct (is_space c) eqn:Hc; [reflexivity|].
    rewrite rstrip_cons. simpl rstrip. now rewrite Hc.
  - rewrite rstrip_cons, IH. reflexivity.
Qed.

Lemma rstrip_head (c : ascii) (s : string) :
  is_space c = false -> exists k, rstrip (String c s) = String c k.
Proof.
  intros Hc. rewrite rstrip_cons. destruct (rstrip s); [rewrite Hc|]; eauto.
Qed.

Lemma lstrip_head (s : string) :
  lstrip s = EmptyString \/ exists c k, lstrip s = String c k /\ is_space c = false.
Proof.
  induction s as [|c s IH]; [now left|].
  cbn [lstrip]. destruct (is_space c) eqn:Hc; [exact IH|]. right. eauto.
Qed.

Lemma strip_head (s : string) :
  strip s = EmptyString \/ exists c k, strip s = String c k /\ is_space c = false.
Proof.
  unfold strip. destruct (lstrip_head s) as [->|(c & k & -> & Hc)]; [now left|].
  right. destruct (rstrip_head c k Hc) as [k' ->]. eauto.
Qed.

Lemma strip_idempotent (s : string) : strip (strip s) = strip s.
Proof.
  destruct (strip_head s) as [->|(c & k & Hs & Hc)]; [reflexivity|].
  unfold strip at 1. rewrite Hs. cbn [lstrip]. rewrite Hc, <- Hs.
  unfold strip. apply rstrip_idempotent.
Qed.

(** X19: every feed returned is stripped, not empty and not a comment, and
    reading the returned feeds back as lines returns them unchanged. *)
Theorem feeds_are_clean_and_stable (lines : list string) :
  Forall (fun feed => strip feed = feed /\ feed <> EmptyString /\
                      is_comment feed = false) (feeds_of_lines lines) /\
  feeds_of_lines (feeds_of_lines lines) = feeds_of_lines lines.
Proof.
  assert (Forall (fun feed => strip feed = feed /\ feed <> EmptyString /\
                              is_comment feed = false) (feeds_of_lines lines)) as Hclean.
  { unfold feeds_of_lines. apply Forall_forall. intros feed Hin.
    apply in_map_iff in Hin. destruct Hin as (line & <- & Hin).
    apply filter_In in Hin. destruct Hin as [_ Hok].
    apply andb_true_iff in Hok. destruct Hok as [Hnb Hnc].
    split; [apply strip_idempotent|]. split.
    - intros Heq. rewrite Heq in Hnb. discriminate.
    - now apply negb_true_iff. }
  split; [exact Hclean|].
  induction Hclean as [|feed feeds (Hs & Hne & Hc) _ IH]; [reflexivity|].
  unfold feeds_of_lines in *. cbn [filter]. rewrite Hs, Hc.
  destruct feed; [congruence|]. cbn [nonblank negb andb map]. rewrite Hs.
  f_equal. exact IH.
Qed.

Lemma rstrip_newline (s : string) :
  rstrip (String.append s (String newline EmptyString)) = rstrip s.
Proof.
  induction s as [|c s IH]; [reflexivity|].
  cbn [String.append]. now rewrite !rstrip_cons, IH.
Qed.

Lemma strip_written_line (feed : string) :
  strip feed = feed -> feed <> EmptyString ->
  strip (String.append feed (String newline EmptyString)) = feed.
Proof.
  intros Hs Hne. unfold strip in *.
  destruct (lstrip_head feed) as [He|(c & k & Hl & Hc)].
  - rewrite He in Hs. simpl in Hs. congruence.
  - assert (lstrip (String.append feed (String newline EmptyString))
            = String.append (lstrip feed) (String newline EmptyString)) as ->.
    { clear Hs Hne. revert c k Hl Hc. induction feed as [|x feed IH]; intros c k Hl Hc.
      - discriminate.
      - cbn [String.append lstrip] in *. destruct (is_space x) eqn:Hx.
        + now apply IH with c k.
        + reflexivity. }
    now rewrite rstrip_newline.
Qed.

Lemma universal_newlines_line (feed rest : string) :
  one_line feed = true ->
  universal_newlines (String.append feed (String newline rest))
  = String.append feed (String newline (universal_newlines rest)).
Proof.
  induction feed as [|c feed IH]; intros H.
  - reflexivity.
  - cbn [one_line] in H. apply andb_true_iff in H. destruct H as [H Hrest].
    apply andb_true_iff in H. destruct H as [_ Hcr]. apply negb_true_iff in Hcr.
    cbn [String.append universal_newlines]. rewrite Hcr. now rewrite IH.
Qed.

Lemma lines_of_line (feed rest : string) :
  one_line feed = true ->
  lines_of (String.append feed (String newline rest))
  = String.append feed (String newline EmptyString) :: lines_of rest.
Proof.
  induction feed as [|c feed IH]; intros H.
  - reflexivity.
  - cbn [one_line] in H. apply andb_true_iff in H. destruct H as [H Hrest].
    apply andb_true_iff in H. destruct H as [Hnl _]. apply negb_true_iff in Hnl.
    cbn [String.append lines_of]. rewrite Hnl, IH by exact Hrest. reflexivity.
Qed.

Lemma append_assoc (a b c : string) :
  String.append (String.append a b) c = String.append a (String.append b c).
Proof. induction a as [|x a IH]; simpl; [|rewrite IH]; reflexivity. Qed.

Lemma read_written_feeds (feeds : list string) :
  Forall clean_feed feeds ->
  feeds_of_lines
    (lines_of (universal_newlines
       (String.concat EmptyString
          (map (fun feed => String.append feed (String newline EmptyString)) feeds))))
  = feeds.
Proof.
  induction 1 as [|feed feeds (Hs & Hne & Hc & Hl) Hrest IH]; [reflexivity|].
  assert (forall rest,
    String.concat EmptyString
      (String.append feed (String newline EmptyString) :: rest)
    = String.append feed (String newline (String.concat EmptyString rest))) as Hcat.
  { intros rest. cbn [String.concat]. destruct rest as [|r rest'].
    - reflexivity.
    - cbn [String.append]. now rewrite append_assoc. }
  cbn [map]. rewrite Hcat, universal_newlines_line, lines_of_line by exact Hl.
  unfold feeds_of_lines in *. cbn [filter].
  rewrite (strip_written_line feed Hs Hne), Hc.
  destruct feed; [congruence|]. cbn [nonblank negb andb map].
  rewrite (strip_written_line _ Hs Hne). f_equal. exact IH.
Qed.

Lemma skipped_line (line : string) (lines : list string) :
  nonblank (strip line) && negb (is_comment (strip line)) = false ->
  feeds_of_lines (line :: lines) = feeds_of_lines lines.
Proof. intros H. unfold feeds_of_lines. cbn [filter]. now rewrite H. Qed.

(** X20: clean feeds written by the wizard are read back by the dashboard
    exactly as they were, the header comments and the blank line dropped. *)
Theorem saved_feeds_load_back (feeds : list string) :
  Forall clean_feed feeds ->
  load_calendar_feeds (Some (saved_feeds_text feeds)) = inr feeds.
Proof.
  intros Hclean. unfold load_calendar_feeds. f_equal.
  rewrite <- (read_written_feeds feeds Hclean) at 2.
  unfold saved_feeds_text.
  set (body := String.concat EmptyString _).
  change (String.append _ _) with
    (String.append "# Calendar Feed URLs"
       (String newline
          (String.append "# Add your calendar feed URLs here, one per line"
             (String newline
                (String.append "# Lines starting with # are comments"
                   (String newline
                      (String.append EmptyString (String newline body)))))))).
  rewrite !universal_newlines_line by reflexivity.
  rewrite !lines_of_line by reflexivity.
  rewrite !skipped_line by reflexivity.
  reflexivity.
Qed.

Lemma saved_feeds_witness :
  Forall clean_feed sample_feeds /\
  load_calendar_feeds (Some (saved_feeds_text sample_feeds)) = inr sample_feeds.
Proof.
  assert (Forall clean_feed sample_feeds) as Hclean.
  { repeat constructor; try reflexivity; discriminate. }
  split; [exact Hclean|].
  apply (saved_feeds_load_back sample_feeds Hclean).
Defined.

End FeedsFacts.
